(** * Docker provider: workload discovery and event-driven refresh

    A shallow embedding of [provider/docker/docker.go]: the normalisation of
    containers, swarm services and swarm tasks into [dockerData] records, the
    two enumeration passes ([listContainers], [listServices]) and the two
    event handlers of the watch loops ([startStopHandle], [callbackFunc]).

    Conventions.
    - Go strings are [string]; Go [int] is [Z]; a pointer that may be nil is
      an [option]; a Go map is a [gmap] (a nil map and an empty map are both
      [∅]: the code only ranges over maps and takes their [len]).
    - A call that returns [(value, error)] returns a [Result].
    - Code that talks to the daemon runs in the state monad [M] over a
      [World]: the calls made so far, the messages sent on the configuration
      channel, the seconds slept, whether the watch context was cancelled.
    - Logging has no effect on control flow and is left out; a branch of the
      source that only logs is a comment naming the message. *)

From Stdlib Require Import ZArith String Ascii Strings.Byte DecimalString DecimalNat.
From stdpp Require Import gmap strings list fin_maps.
Import Byte.

Local Open Scope Z_scope.

(** ** Results of fallible calls *)

Definition error := string.

Inductive Result (A : Type) : Type :=
| Ok (a : A)
| Err (e : error).
Arguments Ok {A} a.
Arguments Err {A} e.

(** ** Library functions used by the provider *)

(** [strconv.Itoa]: the decimal form of an integer, with a leading minus sign
    for negative numbers. *)
Definition Itoa (z : Z) : string := NilZero.string_of_int (Z.to_int z).

(** The decimal numeral of a natural number, used to write version strings. *)
Definition numeral (n : nat) : string := NilZero.string_of_uint (Nat.to_uint n).

Definition maxInt64 : Z := 9223372036854775807.
Definition minInt64 : Z := -9223372036854775808.

Definition digitOf (c : ascii) : option Z :=
  let d := Z.of_nat (nat_of_ascii c) - 48 in
  if (0 <=? d) && (d <=? 9) then Some d else None.

(** The digit loop of [strconv.Atoi]: [n = n*10 + int(ch - '0')], a syntax
    error at the first byte that is not a digit. *)
Fixpoint atoiLoop (s : string) (n : Z) : option Z :=
  match s with
  | EmptyString => Some n
  | String ch rest =>
      match digitOf ch with
      | Some d => atoiLoop rest (n * 10 + d)
      | None => None
      end
  end.

Definition clampInt64 (z : Z) : Z := Z.max minInt64 (Z.min maxInt64 z).

(** [strconv.Atoi] with its error dropped, as [versions.compare] calls it
    ([currInt, _ = strconv.Atoi(..)]): 0 on a syntax error, the nearest
    representable value on a range error. *)
Definition Atoi (s : string) : Z :=
  match s with
  | EmptyString => 0
  | String c rest =>
      let neg := Ascii.eqb c "-" in
      let body := if neg || Ascii.eqb c "+" then rest else s in
      match body with
      | EmptyString => 0
      | _ =>
          match atoiLoop body 0 with
          | Some n => clampInt64 (if neg then - n else n)
          | None => 0
          end
      end
  end.

(** [strings.Split(s, ".")]. *)
Fixpoint splitDot (s : string) : list string :=
  match s with
  | EmptyString => [EmptyString]
  | String c rest =>
      if Ascii.eqb c "." then EmptyString :: splitDot rest
      else
        match splitDot rest with
        | h :: t => String c h :: t
        | [] => [String c EmptyString]
        end
  end.

(** [versions.compare] of the Docker API types: the dot-separated fields are
    compared as integers, a missing field counting as 0. *)
Fixpoint compareLoop (fuel i : nat) (currTab otherTab : list string) : Z :=
  match fuel with
  | O => 0
  | S fuel' =>
      let currInt := from_option Atoi 0 (currTab !! i) in
      let otherInt := from_option Atoi 0 (otherTab !! i) in
      if otherInt <? currInt then 1
      else if currInt <? otherInt then -1
      else compareLoop fuel' (S i) currTab otherTab
  end.

Definition compare (v1 v2 : string) : Z :=
  let currTab := splitDot v1 in
  let otherTab := splitDot v2 in
  compareLoop (Nat.max (length currTab) (length otherTab)) 0 currTab otherTab.

Definition GreaterThanOrEqualTo (v other : string) : bool := 0 <=? compare v other.

(** [strings.HasPrefix]. *)
Definition HasPrefix (s pre : string) : bool := String.prefix pre s.

(** *** [net.IP] and its [String] method

    An IP is a byte slice; the nil slice is [[]]. *)
Abbreviation IP := (list Byte.byte).

Definition byteVal (b : Byte.byte) : Z := Z.of_N (Byte.to_N b).

Definition byteAt (p : IP) (i : Z) : Z := byteVal (nth (Z.to_nat i) p Byte.x00).

Definition hexDigit (v : Z) : string :=
  String (nth (Z.to_nat v) (list_ascii_of_string "0123456789abcdef") "0"%char) EmptyString.

(** [appendHex]: hexadecimal without leading zeros. *)
Definition hexOf (i : Z) : string :=
  if i =? 0 then "0"%string
  else
    fold_right
      (fun j acc =>
         let v := Z.shiftr i (j * 4) in
         (if 0 <? v then hexDigit (Z.land v 15) else EmptyString) +:+ acc)
      EmptyString [7; 6; 5; 4; 3; 2; 1; 0].

(** [hexString]: two hexadecimal digits per byte. *)
Fixpoint hexString (b : IP) : string :=
  match b with
  | [] => EmptyString
  | tn :: rest =>
      hexDigit (Z.shiftr (byteVal tn) 4) +:+ hexDigit (Z.land (byteVal tn) 15)
        +:+ hexString rest
  end.

Definition isZeros (p : IP) : bool := forallb (λ b, byteVal b =? 0) p.

Definition To4 (ip : IP) : IP :=
  if (length ip =? 4)%nat then ip
  else if (length ip =? 16)%nat && isZeros (take 10 ip)
          && (byteAt ip 10 =? 255) && (byteAt ip 11 =? 255)
       then drop 12 ip
       else [].

Fixpoint zeroRun (p : IP) (fuel : nat) (j : Z) : Z :=
  match fuel with
  | O => j
  | S fuel' =>
      if (j <? 16) && (byteAt p j =? 0) && (byteAt p (j + 1) =? 0)
      then zeroRun p fuel' (j + 2)
      else j
  end.

(** The longest run of zero groups, as the half-open byte range [e0, e1). *)
Fixpoint longestRun (p : IP) (fuel : nat) (i e0 e1 : Z) : Z * Z :=
  match fuel with
  | O => (e0, e1)
  | S fuel' =>
      if i <? 16 then
        let j := zeroRun p 8 i in
        if (i <? j) && (e1 - e0 <? j - i)
        then longestRun p fuel' (j + 2) i j
        else longestRun p fuel' (i + 2) e0 e1
      else (e0, e1)
  end.

Definition group (p : IP) (i : Z) : Z :=
  Z.lor (Z.shiftl (byteAt p i) 8) (byteAt p (i + 1)).

Fixpoint printGroups (p : IP) (fuel : nat) (i e0 e1 : Z) : string :=
  match fuel with
  | O => EmptyString
  | S fuel' =>
      if i <? 16 then
        if i =? e0 then
          "::" +:+ (if 16 <=? e1 then EmptyString
                    else hexOf (group p e1) +:+ printGroups p fuel' (e1 + 2) e0 e1)
        else
          (if 0 <? i then ":"%string else EmptyString)
            +:+ hexOf (group p i) +:+ printGroups p fuel' (i + 2) e0 e1
      else EmptyString
  end.

(** [net.IP.String]: ["<nil>"] for an IP of length 0, dotted decimal for an
    IPv4 address, the compressed colon form for an IPv6 address. *)
Definition IP_String (ip : IP) : string :=
  if (length ip =? 0)%nat then "<nil>"%string
  else
    let p4 := To4 ip in
    if (length p4 =? 4)%nat then
      Itoa (byteAt p4 0) +:+ "." +:+ Itoa (byteAt p4 1) +:+ "."
        +:+ Itoa (byteAt p4 2) +:+ "." +:+ Itoa (byteAt p4 3)
    else if negb (length ip =? 16)%nat then "?" +:+ hexString ip
    else
      let '(e0, e1) := longestRun ip 8 0 (-1) (-1) in
      let '(e0, e1) := if e1 - e0 <=? 2 then (-1, -1) else (e0, e1) in
      printGroups ip 8 0 e0 e1.

(** ** Docker API types

    Only the fields the provider reads are kept. Field names carry a short
    prefix of their struct, since several structs have an [ID] or a [Name]. *)

(** [filters.Args], as the list of the [(key, value)] pairs added to it. *)
Abbreviation Filters := (list (string * string)).
Definition NewArgs (args : Filters) : Filters := args.
Definition Arg (key value : string) : string * string := (key, value).
Definition Add (f : Filters) (key value : string) : Filters := f ++ [(key, value)].

(** [nat.PortMap]: port (such as ["80/tcp"]) to its [(HostIP, HostPort)] bindings. *)
Abbreviation PortMap := (gmap string (list (string * string))).

Record ContainerNode := {
  node_ID : string;
  node_IPAddress : string;
  node_Name : string
}.

Record Health := { health_Status : string }.

Record ContainerState := {
  state_Running : bool;
  state_Health : option Health
}.

Record HostConfig := { hc_NetworkMode : string }.

Record ContainerJSONBase := {
  base_Name : string;
  base_Node : option ContainerNode;
  base_HostConfig : option HostConfig;
  base_State : option ContainerState
}.

Record ContainerConfig := { config_Labels : gmap string string }.

Record EndpointSettings := {
  es_NetworkID : string;
  es_IPAddress : string
}.

Record ContainerNetworkSettings := {
  cns_Ports : PortMap;
  cns_Networks : gmap string EndpointSettings
}.

Record ContainerJSON := {
  cj_ContainerJSONBase : option ContainerJSONBase;
  cj_Config : option ContainerConfig;
  cj_NetworkSettings : option ContainerNetworkSettings
}.

(** An entry of the container list. *)
Record Container := { container_ID : string }.

Record NetworkResource := {
  net_Name : string;
  net_ID : string
}.

Record Version := {
  ver_Version : string;
  ver_APIVersion : string
}.

(** [swarmtypes.ResolutionMode] and [swarmtypes.TaskState] are string types. *)
Definition ResolutionModeVIP : string := "vip".
Definition ResolutionModeDNSRR : string := "dnsrr".

Definition TaskStateNew : string := "new".
Definition TaskStatePending : string := "pending".
Definition TaskStateAssigned : string := "assigned".
Definition TaskStateAccepted : string := "accepted".
Definition TaskStatePreparing : string := "preparing".
Definition TaskStateStarting : string := "starting".
Definition TaskStateRunning : string := "running".

Record Annotations := {
  ann_Name : string;
  ann_Labels : gmap string string
}.

(** [swarmtypes.ServiceMode]: two optional pointers; only [Global] is read. *)
Record ServiceMode := {
  mode_Replicated : option Z;
  mode_Global : option unit
}.

Record EndpointSpec := { eps_Mode : string }.

Record ServiceSpec := {
  spec_Annotations : Annotations;
  spec_Mode : ServiceMode;
  spec_EndpointSpec : option EndpointSpec
}.

Record EndpointVirtualIP := {
  vip_NetworkID : string;
  vip_Addr : string
}.

Record Endpoint := { ep_VirtualIPs : list EndpointVirtualIP }.

Record Service := {
  svc_ID : string;
  svc_Spec : ServiceSpec;
  svc_Endpoint : Endpoint
}.

Record NetworkAttachment := {
  na_Network_ID : string;
  na_Addresses : list string
}.

Record Task := {
  task_ID : string;
  task_Slot : Z;
  task_Status_State : string;
  task_NetworksAttachments : list NetworkAttachment
}.

(** [eventtypes.Message]. *)
Record Message := {
  msg_Action : string;
  msg_Actor_ID : string
}.

(** ** The provider's own data *)

(** [networkData]. *)
Record networkData := {
  nd_Name : string;
  nd_Addr : string;
  nd_Port : Z;
  nd_Protocol : string;
  nd_ID : string
}.

(** [networkSettings]. *)
Record networkSettings := {
  NetworkMode : string;
  Ports : PortMap;
  Networks : gmap string networkData
}.

(** [dockerData]. *)
Record dockerData := {
  ServiceName : string;
  Name : string;
  Labels : gmap string string;
  NetworkSettings : networkSettings;
  Health_ : string;
  Node : option ContainerNode;
  SegmentLabels : gmap string string;
  SegmentName : string
}.

(** The zero values [networkSettings{}] and [dockerData{}]. *)
Definition networkSettings0 : networkSettings :=
  {| NetworkMode := ""; Ports := ∅; Networks := ∅ |}.

Definition dockerData0 : dockerData :=
  {| ServiceName := ""; Name := ""; Labels := ∅; NetworkSettings := networkSettings0;
     Health_ := ""; Node := None; SegmentLabels := ∅; SegmentName := "" |}.

Definition setNetworks (d : dockerData) (n : gmap string networkData) : dockerData :=
  {| ServiceName := ServiceName d; Name := Name d; Labels := Labels d;
     NetworkSettings := {| NetworkMode := NetworkMode (NetworkSettings d);
                           Ports := Ports (NetworkSettings d);
                           Networks := n |};
     Health_ := Health_ d; Node := Node d;
     SegmentLabels := SegmentLabels d; SegmentName := SegmentName d |}.

(** [len(s)] of a string and [len(m)] of a map, as Go integers. *)
Definition len (s : string) : Z := Z.of_nat (String.length s).
Definition lenMap {A} (m : gmap string A) : Z := Z.of_nat (size m).

(** ** The daemon and the world

    A client answers each call from the number of calls made before it, so a
    daemon whose state changes between calls is a client whose answers depend
    on that number. *)
Record Client := {
  ContainerList : nat → Result (list Container);
  ContainerInspect : nat → string → Result ContainerJSON;
  ServiceList : nat → Result (list Service);
  ServerVersion : nat → Result Version;
  NetworkList : nat → Filters → Result (list NetworkResource);
  TaskList : nat → Filters → Result (list Task)
}.

Inductive Call :=
| CallContainerList
| CallContainerInspect (containerID : string)
| CallServiceList
| CallServerVersion
| CallNetworkList (f : Filters)
| CallTaskList (f : Filters).

Global Instance Call_eq_dec : EqDecision Call.
Proof. solve_decision. Defined.

(** [types.ConfigMessage], over the configuration type of the builder. *)
Record ConfigMessage (Configuration : Type) := {
  ProviderName : string;
  Configuration_ : option Configuration
}.
Arguments ProviderName {Configuration} _.
Arguments Configuration_ {Configuration} _.

(** The world: [trace] has the latest call first, [chan] the messages sent on
    the configuration channel in the order sent. *)
Record World (Configuration : Type) := {
  tick : nat;
  trace : list Call;
  chan : list (ConfigMessage Configuration);
  slept : nat;
  cancelled : bool
}.
Arguments tick {Configuration} _.
Arguments trace {Configuration} _.
Arguments chan {Configuration} _.
Arguments slept {Configuration} _.
Arguments cancelled {Configuration} _.

Definition world0 {Configuration : Type} : World Configuration :=
  {| tick := 0; trace := []; chan := []; slept := 0; cancelled := false |}.

Definition M (Configuration A : Type) : Type :=
  World Configuration → A * World Configuration.

Global Instance M_ret {Configuration} : MRet (M Configuration) :=
  λ A a w, (a, w).
Global Instance M_bind {Configuration} : MBind (M Configuration) :=
  λ A B f m w, let '(a, w') := m w in f a w'.

(** ** Sample daemons

    The concrete inputs on which the model is run below: one instance of each
    function the file takes from elsewhere, a standalone daemon with four
    containers and a swarm with one overlay network and a few services. *)

(** An instance of [isBackendLBSwarm]: the record carries the label
    [traefik.backend.loadbalancer.swarm] with the value [true]. *)
Definition lbSwarmLabel (d : dockerData) : bool :=
  bool_decide (Labels d !! "traefik.backend.loadbalancer.swarm" = Some "true"%string).

Definition lbSwarmLabels : gmap string string :=
  {[ "traefik.backend.loadbalancer.swarm"%string := "true"%string ]}.

(** The answers of [net.ParseCIDR] on the addresses of the sample swarm: two
    IPv4 addresses in their 16-byte form, an error on anything else. *)
Definition sampleParseCIDR (s : string) : option IP :=
  let v4 (d : Byte.byte) : IP :=
    [x00; x00; x00; x00; x00; x00; x00; x00; x00; x00; xff; xff; x0a; x00; x00; d] in
  if String.eqb s "10.0.0.2/24" then Some (v4 x02)
  else if String.eqb s "10.0.0.3/24" then Some (v4 x03)
  else None.

(** Two instances of [p.buildConfiguration] over the names of the records:
    one that always builds a configuration, one that never does. *)
Definition buildNames (l : list dockerData) : option (list string) := Some (map Name l).
Definition buildNothing (l : list dockerData) : option (list string) := None.

Definition hasArg (f : Filters) (key value : string) : bool :=
  existsb (λ kv, String.eqb kv.1 key && String.eqb kv.2 value) f.

Definition ingress : NetworkResource := {| net_Name := "ingress"; net_ID := "n1" |}.

Definition mkService (id name : string) (labels : gmap string string) (global : bool)
    (mode : string) (vips : list EndpointVirtualIP) : Service :=
  {| svc_ID := id;
     svc_Spec :=
       {| spec_Annotations := {| ann_Name := name; ann_Labels := labels |};
          spec_Mode := {| mode_Replicated := if global then None else Some 1;
                          mode_Global := if global then Some tt else None |};
          spec_EndpointSpec := Some {| eps_Mode := mode |} |};
     svc_Endpoint := {| ep_VirtualIPs := vips |} |}.

Definition mkTask (id : string) (slot : Z) (state : string) (addrs : list string) : Task :=
  {| task_ID := id; task_Slot := slot; task_Status_State := state;
     task_NetworksAttachments := [ {| na_Network_ID := "n1"; na_Addresses := addrs |} ] |}.

(** Replicated, VIP mode, no label: resolved through its tasks. *)
Definition svcAlpha : Service :=
  mkService "A" "alpha" ∅ false "vip" [ {| vip_NetworkID := "n1"; vip_Addr := "10.0.0.2/24" |} ].

(** A service whose task list cannot be fetched. *)
Definition svcBeta : Service := mkService "B" "beta" ∅ false "vip" [].

(** DNSRR mode with the swarm load-balancer label. *)
Definition svcGamma : Service := mkService "G" "gamma" lbSwarmLabels false "dnsrr" [].

(** DNSRR mode without the label. *)
Definition svcGamma' : Service := mkService "G" "gamma" ∅ false "dnsrr" [].

(** VIP mode with the label and a virtual IP that is not in CIDR form. *)
Definition svcDelta : Service :=
  mkService "D" "delta" lbSwarmLabels false "vip"
    [ {| vip_NetworkID := "n1"; vip_Addr := "10.0.0.300" |} ].

(** Global mode, no label. *)
Definition svcEpsilon : Service := mkService "E" "epsilon" ∅ true "vip" [].

(** VIP mode with the label and a resolvable virtual IP. *)
Definition svcZeta : Service :=
  mkService "Z" "zeta" lbSwarmLabels false "vip"
    [ {| vip_NetworkID := "n1"; vip_Addr := "10.0.0.2/24" |} ].

Definition taskRunning : Task := mkTask "t1" 1 "running" ["10.0.0.3/24"%string].
Definition taskPreparing : Task := mkTask "t2" 2 "preparing" ["10.0.0.2/24"%string].
Definition taskBadAddr : Task := mkTask "t3" 3 "running" ["not-an-address"%string].

Definition swarmTasks (f : Filters) : Result (list Task) :=
  if hasArg f "service" "A" then Ok [taskRunning; taskPreparing]
  else if hasArg f "service" "G" then Ok [taskRunning]
  else if hasArg f "service" "E" then Ok [taskRunning; taskBadAddr]
  else Err "tasks unavailable".

(** A swarm whose service [A] converges: its only task is preparing on the
    first two calls and runs from the third call on. *)
Definition convergingClient : Client :=
  {| ContainerList := λ _, Ok [];
     ContainerInspect := λ _ _, Err "no such container";
     ServiceList := λ _, Ok [svcAlpha];
     ServerVersion := λ _, Ok {| ver_Version := "17.06.0-ce"; ver_APIVersion := "1.30" |};
     NetworkList := λ _ _, Ok [ingress];
     TaskList := λ t _,
       if (t <? 2)%nat then Ok [mkTask "t1" 1 "preparing" ["10.0.0.3/24"%string]]
       else Ok [taskRunning] |}.

(** A swarm whose service [A] never converges: its task stays preparing. *)
Definition stuckClient : Client :=
  {| ContainerList := λ _, Ok [];
     ContainerInspect := λ _ _, Err "no such container";
     ServiceList := λ _, Ok [svcAlpha];
     ServerVersion := λ _, Ok {| ver_Version := "17.06.0-ce"; ver_APIVersion := "1.30" |};
     NetworkList := λ _ _, Ok [ingress];
     TaskList := λ _ _, Ok [taskPreparing] |}.

(** A swarm daemon with the given services. *)
Definition swarmClient (services : list Service) : Client :=
  {| ContainerList := λ _, Ok [];
     ContainerInspect := λ _ _, Err "no such container";
     ServiceList := λ _, Ok services;
     ServerVersion := λ _, Ok {| ver_Version := "17.06.0-ce"; ver_APIVersion := "1.30" |};
     NetworkList := λ _ _, Ok [ingress];
     TaskList := λ _, swarmTasks |}.

Definition containerJSON (name : string) (running : bool)
    (networks : option ContainerNetworkSettings) : ContainerJSON :=
  {| cj_ContainerJSONBase :=
       Some {| base_Name := name; base_Node := None; base_HostConfig := None;
               base_State := Some {| state_Running := running; state_Health := None |} |};
     cj_Config := None;
     cj_NetworkSettings := networks |}.

(** A running container on the host network: one endpoint, without address. *)
Definition webJSON : ContainerJSON :=
  containerJSON "/web" true
    (Some {| cns_Ports := ∅;
             cns_Networks :=
               {[ "host"%string := {| es_NetworkID := "h1"; es_IPAddress := "" |} ]} |}).
(** A stopped container. *)
Definition dbJSON : ContainerJSON := containerJSON "/db" false None.
(** A running container that shares the network of another: no endpoint. *)
Definition sidecarJSON : ContainerJSON :=
  containerJSON "/sidecar" true (Some {| cns_Ports := ∅; cns_Networks := ∅ |}).

(** A standalone daemon: [c1] and [c4] run, [c2] is stopped, [c3] cannot be
    inspected. *)
Definition standaloneClient : Client :=
  {| ContainerList := λ _, Ok [ {| container_ID := "c1" |}; {| container_ID := "c2" |};
                                {| container_ID := "c3" |}; {| container_ID := "c4" |} ];
     ContainerInspect := λ _ id,
       if String.eqb id "c1" then Ok webJSON
       else if String.eqb id "c2" then Ok dbJSON
       else if String.eqb id "c4" then Ok sidecarJSON
       else Err "no such container";
     ServiceList := λ _, Err "not a swarm manager";
     ServerVersion := λ _, Ok {| ver_Version := "17.06.0-ce"; ver_APIVersion := "1.30" |};
     NetworkList := λ _ _, Ok [];
     TaskList := λ _ _, Err "not a swarm manager" |}.

(** The world the samples start from, and the network map of the sample swarm. *)
Definition sampleWorld : World (list string) := world0.
Definition sampleNetworks : gmap string NetworkResource := {[ "n1"%string := ingress ]}.

Definition startEvent : Message := {| msg_Action := "start"; msg_Actor_ID := "c1" |}.
Definition renameEvent : Message := {| msg_Action := "rename"; msg_Actor_ID := "c1" |}.
Definition updateEvent (serviceID : string) : Message :=
  {| msg_Action := "update"; msg_Actor_ID := serviceID |}.

Section Provider.

(** [types.Configuration] and the three functions the file calls but does not
    define: [p.buildConfiguration] (nil when no configuration could be
    built), [isBackendLBSwarm] (a predicate on the record of a service) and
    [net.ParseCIDR] ([None] when it returns an error, in which case the IP it
    returns is nil). *)
Variable Configuration : Type.
Variable buildConfiguration : list dockerData → option Configuration.
Variable isBackendLBSwarm : dockerData → bool.
Variable ParseCIDR : string → option IP.

Local Abbreviation M := (M Configuration).
Local Abbreviation World := (World Configuration).

(** [ip, _, _ := net.ParseCIDR(addr)] followed by [ip.String()]. *)
Definition cidrHost (addr : string) : string :=
  IP_String (default [] (ParseCIDR addr)).

(** *** Steps on the world *)

(** The world after one more call to the daemon. *)
Definition called (c : Call) (w : World) : World :=
  {| tick := S (tick w); trace := c :: trace w; chan := chan w;
     slept := slept w; cancelled := cancelled w |}.

Definition call {A} (c : Call) (answer : nat → A) : M A :=
  λ w, (answer (tick w), called c w).

(** [configurationChan <- msg]. *)
Definition sent (msg : ConfigMessage Configuration) (w : World) : World :=
  {| tick := tick w; trace := trace w; chan := chan w ++ [msg];
     slept := slept w; cancelled := cancelled w |}.

Definition send (msg : ConfigMessage Configuration) : M unit :=
  λ w, (tt, sent msg w).

(** [time.Sleep(n * time.Second)]. *)
Definition asleep (n : nat) (w : World) : World :=
  {| tick := tick w; trace := trace w; chan := chan w;
     slept := (slept w + n)%nat; cancelled := cancelled w |}.

Definition sleep (n : nat) : M unit :=
  λ w, (tt, asleep n w).

(** [cancel()] of the watch context. *)
Definition stopped (w : World) : World :=
  {| tick := tick w; trace := trace w; chan := chan w;
     slept := slept w; cancelled := true |}.

Definition cancel : M unit :=
  λ w, (tt, stopped w).

(** *** Standalone containers *)

(** [parseContainer]. *)
Definition parseContainer (container : ContainerJSON) : dockerData :=
  let base : option ContainerJSONBase := cj_ContainerJSONBase container in
  let name := from_option base_Name "" base in
  {| ServiceName := name; (* Default ServiceName to be the container's Name. *)
     Name := name;
     Labels := from_option config_Labels ∅ (cj_Config container);
     NetworkSettings :=
       {| NetworkMode :=
            match base with
            | Some b => from_option hc_NetworkMode "" (base_HostConfig b)
            | None => ""
            end;
          Ports := from_option cns_Ports ∅ (cj_NetworkSettings container);
          Networks :=
            match cj_NetworkSettings container with
            | Some s =>
                map_imap (M := gmap string)
                  (λ name containerNetwork,
                     Some {| nd_ID := es_NetworkID containerNetwork;
                             nd_Name := name;
                             nd_Addr := es_IPAddress containerNetwork;
                             nd_Port := 0; nd_Protocol := "" |})
                  (cns_Networks s)
            | None => ∅
            end |};
     Health_ :=
       match base with
       | Some b =>
           match base_State b with
           | Some st => from_option health_Status "" (state_Health st)
           | None => ""
           end
       | None => ""
       end;
     Node := match base with Some b => base_Node b | None => None end;
     SegmentLabels := ∅;
     SegmentName := "" |}.

(** The guard of [inspectContainers]:
    [ContainerJSONBase != nil && State != nil && State.Running]. *)
Definition isRunning (containerInspected : ContainerJSON) : bool :=
  match cj_ContainerJSONBase containerInspected with
  | Some base =>
      match base_State base with
      | Some st => state_Running st
      | None => false
      end
  | None => false
  end.

(** [inspectContainers]. *)
Definition inspectContainers (dockerClient : Client) (containerID : string) : M dockerData :=
  r ← call (CallContainerInspect containerID)
           (λ t, ContainerInspect dockerClient t containerID);
  match r with
  | Err _ => mret dockerData0 (* Warnf "Failed to inspect container" *)
  | Ok containerInspected =>
      if isRunning containerInspected
      then mret (parseContainer containerInspected)
      else mret dockerData0
  end.

(** The loop of [listContainers] over the container list. *)
Fixpoint listContainers_loop (dockerClient : Client) (containerList : list Container)
    (containersInspected : list dockerData) : M (list dockerData) :=
  match containerList with
  | [] => mret containersInspected
  | container :: rest =>
      dData ← inspectContainers dockerClient (container_ID container);
      listContainers_loop dockerClient rest
        (if 0 <? len (Name dData)
         then containersInspected ++ [dData]
         else containersInspected)
  end.

(** [listContainers]: the records and the error returned. *)
Definition listContainers (dockerClient : Client) : M (list dockerData * option error) :=
  r ← call CallContainerList (ContainerList dockerClient);
  match r with
  | Err err => mret ([], Some err)
  | Ok containerList =>
      containersInspected ← listContainers_loop dockerClient containerList [];
      mret (containersInspected, None)
  end.

(** *** Swarm services and tasks *)

(** One iteration of the loop of [parseService] over the virtual IPs. *)
Definition parseService_vip (networkMap : gmap string NetworkResource)
    (networks : gmap string networkData) (virtualIP : EndpointVirtualIP)
    : gmap string networkData :=
  match networkMap !! vip_NetworkID virtualIP with
  | Some networkService =>
      if 0 <? len (vip_Addr virtualIP) then
        let network := {| nd_Name := net_Name networkService;
                          nd_ID := vip_NetworkID virtualIP;
                          nd_Addr := cidrHost (vip_Addr virtualIP);
                          nd_Port := 0; nd_Protocol := "" |} in
        <[nd_Name network := network]> networks
      else networks (* Debugf "No virtual IPs found in network" *)
  | None => networks (* Debugf "Network not found" *)
  end.

(** [parseService]. *)
Definition parseService (service : Service) (networkMap : gmap string NetworkResource)
    : dockerData :=
  let dData :=
    {| ServiceName := ann_Name (spec_Annotations (svc_Spec service));
       Name := ann_Name (spec_Annotations (svc_Spec service));
       Labels := ann_Labels (spec_Annotations (svc_Spec service));
       NetworkSettings := networkSettings0;
       Health_ := ""; Node := None; SegmentLabels := ∅; SegmentName := "" |} in
  match spec_EndpointSpec (svc_Spec service) with
  | Some endpointSpec =>
      if String.eqb (eps_Mode endpointSpec) ResolutionModeDNSRR then
        (* if isBackendLBSwarm(dData): Warnf "Ignored dnsrr endpoint-mode not
           supported, service name: .. Fallback to Traefik load balancing" *)
        dData
      else if String.eqb (eps_Mode endpointSpec) ResolutionModeVIP then
        setNetworks dData
          (fold_left (parseService_vip networkMap)
             (ep_VirtualIPs (svc_Endpoint service)) ∅)
      else dData
  | None => dData
  end.

(** The inner loop of [parseTasks] over the addresses of one attachment. *)
Definition parseTasks_addr (networkID : string) (networkService : NetworkResource)
    (networks : gmap string networkData) (addr : string) : gmap string networkData :=
  let network := {| nd_ID := networkID;
                    nd_Name := net_Name networkService;
                    nd_Addr := cidrHost addr;
                    nd_Port := 0; nd_Protocol := "" |} in
  <[nd_Name network := network]> networks.

(** One iteration of the loop of [parseTasks] over the network attachments. *)
Definition parseTasks_attachment (networkMap : gmap string NetworkResource)
    (networks : gmap string networkData) (virtualIP : NetworkAttachment)
    : gmap string networkData :=
  match networkMap !! na_Network_ID virtualIP with
  | Some networkService =>
      if (0 <? length (na_Addresses virtualIP))%nat then
        fold_left (parseTasks_addr (na_Network_ID virtualIP) networkService)
          (na_Addresses virtualIP) networks
      else networks (* Debugf "No IP addresses found for network" *)
  | None => networks
  end.

(** [parseTasks]. *)
Definition parseTasks (task : Task) (serviceDockerData : dockerData)
    (networkMap : gmap string NetworkResource) (isGlobalSvc : bool) : dockerData :=
  {| ServiceName := Name serviceDockerData;
     Name := if isGlobalSvc
             then Name serviceDockerData +:+ "." +:+ task_ID task
             else Name serviceDockerData +:+ "." +:+ Itoa (task_Slot task);
     Labels := Labels serviceDockerData;
     NetworkSettings :=
       {| NetworkMode := ""; Ports := ∅;
          Networks := fold_left (parseTasks_attachment networkMap)
                        (task_NetworksAttachments task) ∅ |};
     Health_ := ""; Node := None; SegmentLabels := ∅; SegmentName := "" |}.

(** The filter of the task list of one service. *)
Definition serviceIDFilter (serviceID : string) : Filters :=
  Add (Add (NewArgs []) "service" serviceID) "desired-state" "running".

(** The loop of [listTasks] over the task list. *)
Fixpoint listTasks_loop (taskList : list Task) (serviceDockerData : dockerData)
    (networkMap : gmap string NetworkResource) (isGlobalSvc : bool)
    (dockerDataList : list dockerData) : list dockerData :=
  match taskList with
  | [] => dockerDataList
  | task :: rest =>
      if negb (String.eqb (task_Status_State task) TaskStateRunning) then
        (* Warnf "Task .. is not in the desired state"; continue *)
        listTasks_loop rest serviceDockerData networkMap isGlobalSvc dockerDataList
      else
        let dData := parseTasks task serviceDockerData networkMap isGlobalSvc in
        if 0 <? lenMap (Networks (NetworkSettings dData)) then
          listTasks_loop rest serviceDockerData networkMap isGlobalSvc
            (dockerDataList ++ [dData])
        else (* Warnf "No networks found for task" *)
          listTasks_loop rest serviceDockerData networkMap isGlobalSvc dockerDataList
  end.

(** [listTasks]. *)
Definition listTasks (dockerClient : Client) (serviceID : string)
    (serviceDockerData : dockerData) (networkMap : gmap string NetworkResource)
    (isGlobalSvc : bool) : M (list dockerData * option error) :=
  r ← call (CallTaskList (serviceIDFilter serviceID))
           (λ t, TaskList dockerClient t (serviceIDFilter serviceID));
  match r with
  | Err err => mret ([], Some err)
  | Ok taskList =>
      mret (listTasks_loop taskList serviceDockerData networkMap isGlobalSvc [], None)
  end.

(** The filter of the network list, chosen from the API version of the server. *)
Definition networkListArgs (apiVersion : string) : Filters :=
  if GreaterThanOrEqualTo apiVersion "1.29"
  then Add (NewArgs []) "scope" "swarm"
  else Add (NewArgs []) "driver" "overlay".

(** [networkMap[network.ID] = &networkToAdd] for each listed network. *)
Definition mkNetworkMap (networkList : list NetworkResource) : gmap string NetworkResource :=
  fold_left (λ networkMap network, <[net_ID network := network]> networkMap) networkList ∅.

(** The loop of [listServices] over the service list. [err] is the variable
    of the enclosing function, assigned by every call of [listTasks]. *)
Fixpoint listServices_loop (dockerClient : Client) (serviceList : list Service)
    (networkMap : gmap string NetworkResource)
    (dockerDataList : list dockerData) (err : option error)
    : M (list dockerData * option error) :=
  match serviceList with
  | [] => mret (dockerDataList, err)
  | service :: rest =>
      let dData := parseService service networkMap in
      if isBackendLBSwarm dData then
        if 0 <? lenMap (Networks (NetworkSettings dData)) then
          listServices_loop dockerClient rest networkMap (dockerDataList ++ [dData]) err
        else (* Warnf "No network found for service" *)
          listServices_loop dockerClient rest networkMap dockerDataList err
      else
        let isGlobalSvc := bool_decide (is_Some (mode_Global (spec_Mode (svc_Spec service)))) in
        r ← listTasks dockerClient (svc_ID service) dData networkMap isGlobalSvc;
        match r.2 with
        | Some _ => (* Warnf "No tasks found for service" *)
            listServices_loop dockerClient rest networkMap dockerDataList r.2
        | None =>
            listServices_loop dockerClient rest networkMap (dockerDataList ++ r.1) r.2
        end
  end.

(** [listServices]. *)
Definition listServices (dockerClient : Client) : M (list dockerData * option error) :=
  r ← call CallServiceList (ServiceList dockerClient);
  match r with
  | Err err => mret ([], Some err)
  | Ok serviceList =>
      r ← call CallServerVersion (ServerVersion dockerClient);
      match r with
      | Err err => mret ([], Some err)
      | Ok serverVersion =>
          let args := networkListArgs (ver_APIVersion serverVersion) in
          r ← call (CallNetworkList args) (λ t, NetworkList dockerClient t args);
          match r with
          | Err err => mret ([], Some err)
          | Ok networkList =>
              listServices_loop dockerClient serviceList (mkNetworkMap networkList) [] None
          end
      end
  end.

(** *** Publishing and the watch handlers *)

Definition dockerMessage (configuration : Configuration) : ConfigMessage Configuration :=
  {| ProviderName := "docker"; Configuration_ := Some configuration |}.

(** [p.listAndUpdateServices]. *)
Definition listAndUpdateServices (dockerClient : Client) : M (option error) :=
  r ← listServices dockerClient;
  match r.2 with
  | Some err => mret (Some err)
  | None =>
      match buildConfiguration r.1 with
      | Some configuration => send (dockerMessage configuration);; mret None
      | None => mret None
      end
  end.

(** The start of [operation] in [Provide], with the client already created:
    the version handshake, one enumeration in the mode of the provider, and
    the first message on the channel, which is sent whatever
    [buildConfiguration] returns. *)
Definition operation_start (swarmMode : bool) (dockerClient : Client) : M (option error) :=
  r ← call CallServerVersion (ServerVersion dockerClient);
  match r with
  | Err err => mret (Some err)
  | Ok _ =>
      r ← (if swarmMode then listServices dockerClient else listContainers dockerClient);
      match r.2 with
      | Some err => mret (Some err)
      | None =>
          send {| ProviderName := "docker"; Configuration_ := buildConfiguration r.1 |};;
          mret None
      end
  end.

(** [startStopHandle], the handler of the standalone watch loop. *)
Definition startStopHandle (dockerClient : Client) (m : Message) : M unit :=
  r ← listContainers dockerClient;
  match r.2 with
  | Some _ => (* Errorf "Failed to list containers for docker" *)
      cancel
  | None =>
      match buildConfiguration r.1 with
      | Some configuration => send (dockerMessage configuration)
      | None => mret tt
      end
  end.

(** The test of the standalone watch loop on the action of an event. *)
Definition isWatchedAction (action : string) : bool :=
  String.eqb action "start" || String.eqb action "die"
  || HasPrefix action "health_status".

(** What the two channels of [dockerClient.Events] deliver, in order. *)
Inductive StreamItem :=
| EventItem (event : Message)
| ErrorItem (err : error).

(** One turn of the [select] of the standalone watch loop on an event. *)
Definition watchEvent (dockerClient : Client) (event : Message) : M unit :=
  if isWatchedAction (msg_Action event)
  then startStopHandle dockerClient event
  else mret tt.

(** The standalone watch loop of [Provide] on a finite prefix of the stream:
    [Some err] when the loop has returned [err], [None] when it is still
    waiting for the next item. *)
Fixpoint watchLoop (dockerClient : Client) (items : list StreamItem) : M (option error) :=
  match items with
  | [] => mret None
  | EventItem event :: rest =>
      watchEvent dockerClient event;; watchLoop dockerClient rest
  | ErrorItem err :: _ => mret (Some err)
  end.

(** The events the loop receives before it returns. *)
Fixpoint received (items : list StreamItem) : list Message :=
  match items with
  | EventItem event :: rest => event :: received rest
  | _ => []
  end.

(** The first error the stream delivers. *)
Fixpoint firstError (items : list StreamItem) : option error :=
  match items with
  | [] => None
  | EventItem _ :: rest => firstError rest
  | ErrorItem err :: _ => Some err
  end.

(** [operation] of [Provide] for a provider that is not in swarm mode, with
    the client already created: the first pass, then the watch loop when
    [p.Watch] is set. The result is [None] when [operation] returns nil, and
    also, with the watch on, when the loop is still waiting for an item. *)
Definition operation_standalone (watch : bool) (dockerClient : Client)
    (items : list StreamItem) : M (option error) :=
  e ← operation_start false dockerClient;
  match e with
  | Some err => mret (Some err)
  | None => if watch then watchLoop dockerClient items else mret None
  end.

(** The states that make the swarm callback wait. *)
Definition isTransitional (state : string) : bool :=
  existsb (String.eqb state)
    [TaskStateNew; TaskStatePending; TaskStateAssigned; TaskStateAccepted;
     TaskStatePreparing; TaskStateStarting].

(** The loop labelled [TaskLoop] of [callbackFunc]. *)
Fixpoint TaskLoop (taskList : list Task) (retry : bool) : bool :=
  match taskList with
  | [] => retry
  | task :: rest =>
      if negb (String.eqb (task_Status_State task) TaskStateRunning)
         && isTransitional (task_Status_State task)
      then true (* retry = true; break TaskLoop *)
      else TaskLoop rest retry
  end.

(** [listAndUpdateServicesHelper]: the error is logged and dropped. *)
Definition listAndUpdateServicesHelper (dockerClient : Client) : M unit :=
  listAndUpdateServices dockerClient;; mret tt.

(** [callbackFunc], the handler of the swarm event listener. It calls itself
    after a sleep of one second for as long as the tasks are not ready;
    [fuel] bounds the number of calls, and the result is [None] when the
    bound is reached before the callback returns. *)
Fixpoint callbackFunc (fuel : nat) (dockerClient : Client) (msg : Message) : M (option unit) :=
  match fuel with
  | O => mret None
  | S fuel' =>
      if negb (String.eqb (msg_Actor_ID msg) "") then
        let args := NewArgs [Arg "service" (msg_Actor_ID msg);
                             Arg "desired-state" "running"] in
        r ← call (CallTaskList args) (λ t, TaskList dockerClient t args);
        match r with
        | Err _ => (* Errorf "Failed to list tasks for service" *)
            mret (Some tt)
        | Ok taskList =>
            let retry := TaskLoop taskList (bool_decide (length taskList = 0%nat)) in
            if negb retry then
              listAndUpdateServicesHelper dockerClient;; mret (Some tt)
            else
              sleep 1;; callbackFunc fuel' dockerClient msg
        end
      else
        listAndUpdateServicesHelper dockerClient;; mret (Some tt)
  end.

(** * Properties *)

(** ** Decimal numerals and version strings *)

Lemma atoiLoop_string_of_uint (d : Decimal.uint) (n : nat) :
  atoiLoop (NilEmpty.string_of_uint d) (Z.of_nat n)
  = Some (Z.of_nat (Nat.of_uint_acc d n)).
Proof.
  revert n. induction d as [|d IH|d IH|d IH|d IH|d IH|d IH|d IH|d IH|d IH|d IH];
    intros n; [reflexivity|..];
    cbn [NilEmpty.string_of_uint atoiLoop Nat.of_uint_acc];
    rewrite Nat.tail_mul_spec, <- IH;
    match goal with
    | |- match digitOf ?c with _ => _ end = _ =>
        let v := eval vm_compute in (digitOf c) in change (digitOf c) with v
    end; cbv beta iota; f_equal; lia.
Qed.

Lemma Atoi_string_of_uint (d : Decimal.uint) :
  Atoi (NilZero.string_of_uint d) = clampInt64 (Z.of_nat (Nat.of_uint d)).
Proof.
  destruct d; [reflexivity|..];
    unfold NilZero.string_of_uint, Nat.of_uint;
    cbn [NilEmpty.string_of_uint Nat.of_uint_acc];
    unfold Atoi; cbn [Ascii.eqb Bool.eqb orb atoiLoop];
    match goal with
    | |- context [digitOf ?c] =>
        let v := eval vm_compute in (digitOf c) in change (digitOf c) with v
    end; cbv beta iota;
    match goal with
    | |- context [atoiLoop _ ?k] =>
        let n := eval vm_compute in (Z.to_nat k) in
        change k with (Z.of_nat n)
    end;
    rewrite atoiLoop_string_of_uint; reflexivity.
Qed.

Lemma Atoi_numeral (n : nat) : Atoi (numeral n) = Z.min maxInt64 (Z.of_nat n).
Proof.
  unfold numeral. rewrite Atoi_string_of_uint, DecimalNat.Unsigned.of_to.
  unfold clampInt64, minInt64, maxInt64. lia.
Qed.

(** A string without a dot. *)
Fixpoint noDot (s : string) : bool :=
  match s with
  | EmptyString => true
  | String c rest => negb (Ascii.eqb c ".") && noDot rest
  end.

Lemma noDot_string_of_uint (d : Decimal.uint) : noDot (NilEmpty.string_of_uint d) = true.
Proof. induction d; simpl; auto. Qed.

Lemma noDot_numeral (n : nat) : noDot (numeral n) = true.
Proof.
  unfold numeral, NilZero.string_of_uint.
  destruct (Nat.to_uint n) eqn:E; try reflexivity; rewrite <- E;
    apply noDot_string_of_uint.
Qed.

Lemma splitDot_noDot (s : string) : noDot s = true → splitDot s = [s].
Proof.
  induction s as [|c s IH]; [reflexivity|]. simpl.
  destruct (Ascii.eqb c "."); simpl; [discriminate|].
  intros H. rewrite (IH H). reflexivity.
Qed.

Lemma splitDot_two (a b : string) :
  noDot a = true → noDot b = true → splitDot (a +:+ "." +:+ b) = [a; b].
Proof.
  intros Ha Hb. induction a as [|c a IH].
  - change (splitDot ("" +:+ "." +:+ b)) with (EmptyString :: splitDot b).
    rewrite (splitDot_noDot b Hb). reflexivity.
  - change (splitDot (String c a +:+ "." +:+ b))
      with (if Ascii.eqb c "." then EmptyString :: splitDot (a +:+ "." +:+ b)
            else match splitDot (a +:+ "." +:+ b) with
                 | h :: t => String c h :: t
                 | [] => [String c EmptyString]
                 end).
    simpl in Ha. destruct (Ascii.eqb c "."); simpl in Ha; [discriminate|].
    rewrite (IH Ha). reflexivity.
Qed.

Lemma compare_major_minor (major minor : nat) :
  compare (numeral major +:+ "." +:+ numeral minor) "1.29"
  = if (1 <? major)%nat then 1
    else if (major <? 1)%nat then -1
    else if (29 <? minor)%nat then 1
    else if (minor <? 29)%nat then -1
    else 0.
Proof.
  unfold compare.
  rewrite (splitDot_two _ _ (noDot_numeral major) (noDot_numeral minor)).
  change (splitDot "1.29") with ["1"%string; "29"%string].
  cbn [length Nat.max compareLoop lookup list_lookup from_option].
  rewrite !Atoi_numeral.
  change (Atoi "1") with 1. change (Atoi "29") with 29.
  unfold maxInt64.
  repeat match goal with
         | |- context [(?x <? ?y)%nat] => destruct (Nat.ltb_spec x y)
         | |- context [?x <? ?y] => destruct (Z.ltb_spec x y)
         end; try reflexivity; lia.
Qed.

(** ** How the enumeration passes change the world *)

(** [w'] is [w] after some more calls that all satisfy [P], and nothing else. *)
Definition extends (P : Call → Prop) (w w' : World) : Prop :=
  ∃ calls, trace w' = calls ++ trace w ∧ Forall P calls
           ∧ tick w' = (tick w + length calls)%nat
           ∧ chan w' = chan w ∧ slept w' = slept w ∧ cancelled w' = cancelled w.

Lemma extends_refl P w : extends P w w.
Proof. exists []. rewrite Nat.add_0_r. by repeat split. Qed.

Lemma extends_trans P w1 w2 w3 : extends P w1 w2 → extends P w2 w3 → extends P w1 w3.
Proof.
  intros (c1 & T1 & F1 & K1 & C1 & S1 & X1) (c2 & T2 & F2 & K2 & C2 & S2 & X2).
  exists (c2 ++ c1). rewrite T2, T1, K2, K1, length_app, Forall_app.
  repeat split; try congruence; try done; [by rewrite app_assoc | lia].
Qed.

Lemma extends_called (P : Call → Prop) c w : P c → extends P w (called c w).
Proof.
  intros H. exists [c]. cbn. repeat split; try done; [by constructor | lia].
Qed.

Definition isInspectCall (c : Call) : Prop := ∃ id, c = CallContainerInspect id.
Definition isTaskListCall (c : Call) : Prop := ∃ f, c = CallTaskList f.

Ltac run := unfold mbind, M_bind, mret, M_ret, call, send, sleep, cancel; cbn.

Lemma inspectContainers_run dockerClient containerID w :
  inspectContainers dockerClient containerID w
  = (match ContainerInspect dockerClient (tick w) containerID with
     | Ok containerInspected =>
         if isRunning containerInspected then parseContainer containerInspected
         else dockerData0
     | Err _ => dockerData0
     end, called (CallContainerInspect containerID) w).
Proof.
  unfold inspectContainers. run.
  destruct (ContainerInspect _ _ _) as [ci|e]; [|done].
  by destruct (isRunning ci).
Qed.

Lemma listContainers_loop_cons dockerClient container rest acc w :
  listContainers_loop dockerClient (container :: rest) acc w
  = let r := inspectContainers dockerClient (container_ID container) w in
    listContainers_loop dockerClient rest
      (if 0 <? len (Name r.1) then acc ++ [r.1] else acc) r.2.
Proof.
  cbn [listContainers_loop]. unfold mbind, M_bind.
  by destruct (inspectContainers _ _ w).
Qed.

Lemma listContainers_loop_extends dockerClient containerList acc w :
  extends isInspectCall w (listContainers_loop dockerClient containerList acc w).2.
Proof.
  revert acc w. induction containerList as [|container rest IH]; intros acc w.
  - apply extends_refl.
  - rewrite listContainers_loop_cons. cbv zeta.
    eapply extends_trans; [|apply IH].
    rewrite inspectContainers_run. apply extends_called. by eexists.
Qed.

Lemma listContainers_run dockerClient w :
  listContainers dockerClient w
  = match ContainerList dockerClient (tick w) with
    | Err err => (([], Some err), called CallContainerList w)
    | Ok containerList =>
        let r := listContainers_loop dockerClient containerList []
                   (called CallContainerList w) in
        ((r.1, None), r.2)
    end.
Proof.
  unfold listContainers. run.
  destruct (ContainerList _ _) as [cl|e]; [|done].
  by destruct (listContainers_loop _ _ _ _).
Qed.

Lemma listContainers_extends dockerClient w :
  extends isInspectCall (called CallContainerList w) (listContainers dockerClient w).2.
Proof.
  rewrite listContainers_run. destruct (ContainerList _ _); cbn.
  - apply listContainers_loop_extends.
  - apply extends_refl.
Qed.

Lemma listTasks_run dockerClient serviceID serviceDockerData networkMap isGlobalSvc w :
  listTasks dockerClient serviceID serviceDockerData networkMap isGlobalSvc w
  = (match TaskList dockerClient (tick w) (serviceIDFilter serviceID) with
     | Err err => ([], Some err)
     | Ok taskList =>
         (listTasks_loop taskList serviceDockerData networkMap isGlobalSvc [], None)
     end, called (CallTaskList (serviceIDFilter serviceID)) w).
Proof.
  unfold listTasks. run. by destruct (TaskList _ _ _).
Qed.

(** One iteration of the loop of [listServices], by the three ways a service
    can go: a record of the service itself, nothing, or its tasks. *)
Lemma listServices_loop_cons dockerClient service rest networkMap acc err w :
  listServices_loop dockerClient (service :: rest) networkMap acc err w
  = let dData := parseService service networkMap in
    if isBackendLBSwarm dData then
      listServices_loop dockerClient rest networkMap
        (if 0 <? lenMap (Networks (NetworkSettings dData)) then acc ++ [dData] else acc)
        err w
    else
      let isGlobalSvc :=
        bool_decide (is_Some (mode_Global (spec_Mode (svc_Spec service)))) in
      let w' := called (CallTaskList (serviceIDFilter (svc_ID service))) w in
      match TaskList dockerClient (tick w) (serviceIDFilter (svc_ID service)) with
      | Err e => listServices_loop dockerClient rest networkMap acc (Some e) w'
      | Ok taskList =>
          listServices_loop dockerClient rest networkMap
            (acc ++ listTasks_loop taskList dData networkMap isGlobalSvc []) None w'
      end.
Proof.
  cbn [listServices_loop]. cbv zeta.
  destruct (isBackendLBSwarm _); [by destruct (0 <? _)|].
  unfold mbind, M_bind. rewrite listTasks_run.
  by destruct (TaskList _ _ _).
Qed.

Lemma listServices_loop_extends dockerClient serviceList networkMap acc err w :
  extends isTaskListCall w
    (listServices_loop dockerClient serviceList networkMap acc err w).2.
Proof.
  revert acc err w. induction serviceList as [|service rest IH]; intros acc err w.
  - apply extends_refl.
  - rewrite listServices_loop_cons. cbv zeta.
    destruct (isBackendLBSwarm _); [apply IH|].
    destruct (TaskList _ _ _);
      (eapply extends_trans; [apply extends_called; by eexists | apply IH]).
Qed.

Lemma listServices_run dockerClient w :
  listServices dockerClient w
  = match ServiceList dockerClient (tick w) with
    | Err err => (([], Some err), called CallServiceList w)
    | Ok serviceList =>
        let w1 := called CallServiceList w in
        match ServerVersion dockerClient (tick w1) with
        | Err err => (([], Some err), called CallServerVersion w1)
        | Ok serverVersion =>
            let w2 := called CallServerVersion w1 in
            let args := networkListArgs (ver_APIVersion serverVersion) in
            match NetworkList dockerClient (tick w2) args with
            | Err err => (([], Some err), called (CallNetworkList args) w2)
            | Ok networkList =>
                listServices_loop dockerClient serviceList (mkNetworkMap networkList)
                  [] None (called (CallNetworkList args) w2)
            end
        end
    end.
Proof.
  unfold listServices. run.
  destruct (ServiceList _ _); [|done].
  destruct (ServerVersion _ _); [|done].
  by destruct (NetworkList _ _ _).
Qed.

(** ** The records of a task list *)

(** A task yields a record when it runs and resolves at least one network. *)
Definition taskRecord (serviceDockerData : dockerData)
    (networkMap : gmap string NetworkResource) (isGlobalSvc : bool) (task : Task)
    : option dockerData :=
  let dData := parseTasks task serviceDockerData networkMap isGlobalSvc in
  if String.eqb (task_Status_State task) TaskStateRunning
     && (0 <? lenMap (Networks (NetworkSettings dData)))
  then Some dData else None.

Lemma listTasks_loop_spec taskList serviceDockerData networkMap isGlobalSvc acc :
  listTasks_loop taskList serviceDockerData networkMap isGlobalSvc acc
  = acc ++ omap (taskRecord serviceDockerData networkMap isGlobalSvc) taskList.
Proof.
  revert acc. induction taskList as [|task rest IH]; intros acc.
  - by rewrite app_nil_r.
  - cbn [listTasks_loop omap list_omap]. unfold taskRecord at 1.
    destruct (String.eqb _ _); cbn [negb andb]; [|by rewrite IH].
    destruct (0 <? _); rewrite IH; [|done].
    by rewrite <- app_assoc.
Qed.

Lemma listTasks_loop_elem taskList serviceDockerData networkMap isGlobalSvc d :
  d ∈ listTasks_loop taskList serviceDockerData networkMap isGlobalSvc []
  ↔ ∃ task, task ∈ taskList
            ∧ task_Status_State task = TaskStateRunning
            ∧ 0 < lenMap (Networks (NetworkSettings d))
            ∧ d = parseTasks task serviceDockerData networkMap isGlobalSvc.
Proof.
  rewrite listTasks_loop_spec, app_nil_l, list_elem_of_omap.
  split.
  - intros (task & Hin & Hrec). exists task. unfold taskRecord in Hrec.
    destruct (String.eqb _ _) eqn:Hs; [|done].
    destruct (0 <? _) eqn:Hn; [|done].
    injection Hrec as <-. apply String.eqb_eq in Hs. apply Z.ltb_lt in Hn. done.
  - intros (task & Hin & Hs & Hn & ->). exists task. split; [done|].
    unfold taskRecord. apply String.eqb_eq in Hs. apply Z.ltb_lt in Hn.
    by rewrite Hs, Hn.
Qed.



(** C7. The filter of the network list depends on the API version alone,
    with threshold 1.29: for a version [major.minor] it is [scope=swarm] when
    the version is at least 1.29 and [driver=overlay] below; "1.30" gives
    [scope=swarm] and "1.28" gives [driver=overlay]. [listServices] lists the
    networks with that filter, as its third call, and only lists tasks after. *)
Theorem networkListArgs_threshold :
  (∀ major minor : nat,
     networkListArgs (numeral major +:+ "." +:+ numeral minor)
     = if (1 <? major)%nat || ((major =? 1)%nat && (29 <=? minor)%nat)
       then [("scope", "swarm")] else [("driver", "overlay")])
  ∧ networkListArgs "1.30" = [("scope", "swarm")]
  ∧ networkListArgs "1.28" = [("driver", "overlay")]
  ∧ ∀ dockerClient w serviceList serverVersion,
      ServiceList dockerClient (tick w) = Ok serviceList →
      ServerVersion dockerClient (S (tick w)) = Ok serverVersion →
      extends isTaskListCall
        (called (CallNetworkList (networkListArgs (ver_APIVersion serverVersion)))
           (called CallServerVersion (called CallServiceList w)))
        (listServices dockerClient w).2.
Proof.
  split; [|split; [reflexivity|split; [reflexivity|]]].
  - intros major minor. unfold networkListArgs, GreaterThanOrEqualTo.
    rewrite compare_major_minor.
    repeat match goal with
           | |- context [(?x <? ?y)%nat] => destruct (Nat.ltb_spec x y)
           | |- context [(?x <=? ?y)%nat] => destruct (Nat.leb_spec x y)
           | |- context [(?x =? ?y)%nat] => destruct (Nat.eqb_spec x y)
           end; try reflexivity; lia.
  - intros dockerClient w serviceList serverVersion Hs Hv.
    rewrite listServices_run, Hs. cbn [tick called]. rewrite Hv.
    destruct (NetworkList _ _ _).
    + apply listServices_loop_extends.
    + apply extends_refl.
Qed.

(** ** Where the records of a pass come from *)


Lemma listContainers_loop_elem dockerClient containerList acc w d :
  d ∈ (listContainers_loop dockerClient containerList acc w).1 →
  d ∈ acc
  ∨ ∃ container t containerInspected,
      container ∈ containerList
      ∧ ContainerInspect dockerClient t (container_ID container) = Ok containerInspected
      ∧ isRunning containerInspected = true
      ∧ d = parseContainer containerInspected
      ∧ Name d ≠ EmptyString.
Proof.
  revert acc w. induction containerList as [|container rest IH]; intros acc w.
  - cbn. auto.
  - rewrite listContainers_loop_cons. cbv zeta. rewrite inspectContainers_run.
    cbn [fst snd]. intros [H|(container' & t & ci & Hin & Hci & Hrun & Hd & Hn)]%IH.
    + destruct (0 <? len (Name _)) eqn:Hlen; [|by left].
      apply elem_of_app in H as [H|H]; [by left|right].
      apply list_elem_of_singleton in H.
      exists container, (tick w).
      destruct (ContainerInspect _ _ _) as [ci|e] eqn:Hci; [|done].
      destruct (isRunning ci) eqn:Hrun; [|done].
      exists ci. subst d. repeat split; try done; [by left|].
      intros Hname. by rewrite Hname in Hlen.
    + right. exists container', t, ci. repeat split; try done. by right.
Qed.

(** The record of a swarm service itself, taken on the load-balancer branch. *)
Definition serviceRecord (networkMap : gmap string NetworkResource)
    (service : Service) (d : dockerData) : Prop :=
  isBackendLBSwarm (parseService service networkMap) = true
  ∧ d = parseService service networkMap
  ∧ 0 < lenMap (Networks (NetworkSettings d)).

(** The record of a task of a swarm service, taken on the other branch: the
    task was listed with the filter of the service and runs. *)
Definition runningTaskRecord (dockerClient : Client)
    (networkMap : gmap string NetworkResource) (service : Service) (d : dockerData) : Prop :=
  isBackendLBSwarm (parseService service networkMap) = false
  ∧ ∃ t taskList task,
      TaskList dockerClient t (serviceIDFilter (svc_ID service)) = Ok taskList
      ∧ task ∈ taskList
      ∧ task_Status_State task = TaskStateRunning
      ∧ d = parseTasks task (parseService service networkMap) networkMap
              (bool_decide (is_Some (mode_Global (spec_Mode (svc_Spec service)))))
      ∧ 0 < lenMap (Networks (NetworkSettings d)).

Lemma listServices_loop_elem dockerClient serviceList networkMap acc err w d :
  d ∈ (listServices_loop dockerClient serviceList networkMap acc err w).1.1 →
  d ∈ acc
  ∨ ∃ service, service ∈ serviceList
               ∧ (serviceRecord networkMap service d
                  ∨ runningTaskRecord dockerClient networkMap service d).
Proof.
  revert acc err w. induction serviceList as [|service rest IH]; intros acc err w.
  - cbn. auto.
  - rewrite listServices_loop_cons. cbv zeta.
    assert (∀ P : Service → Prop,
              (∃ s, s ∈ rest ∧ P s) → ∃ s, s ∈ service :: rest ∧ P s) as Hrest.
    { intros P (s & Hs & HP). exists s. split; [by right|done]. }
    destruct (isBackendLBSwarm _) eqn:Hlb.
    + intros [H|H]%IH; [|right; by apply Hrest].
      destruct (0 <? _) eqn:Hn; [|by left].
      apply elem_of_app in H as [H|H]; [by left|right].
      apply list_elem_of_singleton in H. subst d.
      exists service. split; [by left|]. left.
      repeat split; try done. by apply Z.ltb_lt.
    + destruct (TaskList _ _ _) as [taskList|e] eqn:Htasks;
        (intros [H|H]%IH; [|right; by apply Hrest]); [|by left].
      apply elem_of_app in H as [H|H]; [by left|right].
      apply listTasks_loop_elem in H as (task & Hin & Hs & Hn & Hd).
      exists service. split; [by left|]. right.
      split; [done|]. by exists (tick w), taskList, task.
Qed.

Lemma listServices_elem dockerClient w d :
  d ∈ (listServices dockerClient w).1.1 →
  ∃ networkMap service,
    serviceRecord networkMap service d
    ∨ runningTaskRecord dockerClient networkMap service d.
Proof.
  rewrite listServices_run.
  destruct (ServiceList _ _) as [serviceList|]; [|by intros ?%elem_of_nil].
  cbv zeta. destruct (ServerVersion _ _); [|by intros ?%elem_of_nil].
  destruct (NetworkList _ _ _) as [networkList|]; [|by intros ?%elem_of_nil].
  intros [?%elem_of_nil|(service & _ & H)]%listServices_loop_elem; [done|].
  by exists (mkNetworkMap networkList), service.
Qed.


(** ** Addresses and network maps *)

Lemma append_nonempty_r (a b : string) : b ≠ EmptyString → a +:+ b ≠ EmptyString.
Proof. destruct a; cbn; [done|discriminate]. Qed.

Lemma byteAt_nonneg p i : 0 ≤ byteAt p i.
Proof. unfold byteAt, byteVal. lia. Qed.

Lemma hexOf_nonempty i : 0 ≤ i → hexOf i ≠ EmptyString.
Proof.
  intros Hi. unfold hexOf. destruct (Z.eqb_spec i 0) as [|Hne]; [done|].
  cbn [fold_right]. do 7 apply append_nonempty_r.
  change (0 * 4) with 0. rewrite Z.shiftr_0_r.
  destruct (Z.ltb_spec 0 i); [done|lia].
Qed.

Lemma group_nonneg p i : 0 ≤ group p i.
Proof.
  unfold group. apply Z.lor_nonneg. split; [|apply byteAt_nonneg].
  apply Z.shiftl_nonneg, byteAt_nonneg.
Qed.

Lemma printGroups_nonempty p fuel e0 e1 :
  printGroups p (S fuel) 0 e0 e1 ≠ EmptyString.
Proof.
  cbn [printGroups]. change (0 <? 16) with true. change (0 <? 0) with false.
  cbv iota. destruct (0 =? e0); [done|].
  change (EmptyString +:+ ?s) with s.
  intros H. apply (hexOf_nonempty (group p 0) (group_nonneg p 0)).
  destruct (hexOf (group p 0)); [done|discriminate].
Qed.

Lemma IP_String_nonempty ip : IP_String ip ≠ EmptyString.
Proof.
  unfold IP_String. destruct (length ip =? 0)%nat; [done|].
  destruct (length (To4 ip) =? 4)%nat.
  { apply append_nonempty_r. done. }
  destruct (negb _); [done|].
  destruct (longestRun _ _ _ _ _) as [e0 e1].
  destruct (e1 - e0 <=? 2); apply printGroups_nonempty.
Qed.

Lemma cidrHost_nonempty addr : cidrHost addr ≠ EmptyString.
Proof. apply IP_String_nonempty. Qed.

Lemma cidrHost_error addr : ParseCIDR addr = None → cidrHost addr = "<nil>"%string.
Proof. unfold cidrHost. by intros ->. Qed.

Lemma len_pos (s : string) : (0 <? len s) = true ↔ s ≠ EmptyString.
Proof.
  unfold len. destruct s; cbn [String.length]; split; try done.
Qed.

Lemma lenMap_pos {A} (m : gmap string A) : 0 < lenMap m ↔ m ≠ ∅.
Proof.
  unfold lenMap. rewrite <- map_size_non_empty_iff. lia.
Qed.

Lemma fold_left_inv {A B} (P : B → Prop) (f : B → A → B) (l : list A) (b : B) :
  P b → (∀ b a, P b → P (f b a)) → P (fold_left f l b).
Proof.
  intros Hb Hf. revert b Hb. induction l as [|a l IH]; intros b Hb; cbn; auto.
Qed.

(** Every endpoint of the map has a non-empty address. *)
Definition addressed (networks : gmap string networkData) : Prop :=
  map_Forall (λ _ network, nd_Addr network ≠ EmptyString) networks.

Lemma parseService_vip_addressed networkMap networks virtualIP :
  addressed networks → addressed (parseService_vip networkMap networks virtualIP).
Proof.
  intros H. unfold parseService_vip.
  destruct (networkMap !! _); [|done]. destruct (0 <? _); [|done].
  apply map_Forall_insert_2; [apply cidrHost_nonempty|done].
Qed.

Lemma parseTasks_attachment_addressed networkMap networks virtualIP :
  addressed networks → addressed (parseTasks_attachment networkMap networks virtualIP).
Proof.
  intros H. unfold parseTasks_attachment.
  destruct (networkMap !! _); [|done]. destruct (0 <? _)%nat; [|done].
  apply fold_left_inv; [done|]. intros b a Hb.
  apply map_Forall_insert_2; [apply cidrHost_nonempty|done].
Qed.

Lemma parseService_addressed service networkMap :
  addressed (Networks (NetworkSettings (parseService service networkMap))).
Proof.
  unfold parseService.
  destruct (spec_EndpointSpec _); [|apply map_Forall_empty].
  destruct (String.eqb _ ResolutionModeDNSRR); [apply map_Forall_empty|].
  destruct (String.eqb _ ResolutionModeVIP); [|apply map_Forall_empty].
  cbn. apply fold_left_inv; [apply map_Forall_empty|].
  intros b a. apply parseService_vip_addressed.
Qed.

Lemma parseTasks_addressed task serviceDockerData networkMap isGlobalSvc :
  addressed (Networks (NetworkSettings
                         (parseTasks task serviceDockerData networkMap isGlobalSvc))).
Proof.
  cbn. apply fold_left_inv; [apply map_Forall_empty|].
  intros b a. apply parseTasks_attachment_addressed.
Qed.

(** C4, as the code has it. A record of the swarm, whether of a service
    itself or of a task, is emitted only with at least one resolved network,
    and each of its endpoints has a non-empty address; a standalone container
    is kept on its name alone, which is not empty. *)
Theorem cluster_records_have_networks (dockerClient : Client) (w : World) (d : dockerData) :
  (d ∈ (listServices dockerClient w).1.1 →
   Networks (NetworkSettings d) ≠ ∅ ∧ addressed (Networks (NetworkSettings d)))
  ∧ (∀ serviceID serviceDockerData networkMap isGlobalSvc,
       d ∈ (listTasks dockerClient serviceID serviceDockerData networkMap isGlobalSvc w).1.1 →
       Networks (NetworkSettings d) ≠ ∅ ∧ addressed (Networks (NetworkSettings d)))
  ∧ (d ∈ (listContainers dockerClient w).1.1 → Name d ≠ EmptyString).
Proof.
  split; [|split].
  - intros (networkMap & service & [(_ & Hd & Hn)|(_ & t & taskList & task & H)])
             %listServices_elem.
    + split; [by apply lenMap_pos|]. subst d. apply parseService_addressed.
    + destruct H as (_ & _ & _ & Hd & Hn).
      split; [by apply lenMap_pos|]. subst d. apply parseTasks_addressed.
  - intros serviceID serviceDockerData networkMap isGlobalSvc.
    rewrite listTasks_run. cbn [fst].
    destruct (TaskList _ _ _) as [taskList|]; [|by intros ?%elem_of_nil].
    cbn [fst]. intros (task & _ & _ & Hn & Hd)%listTasks_loop_elem.
    split; [by apply lenMap_pos|]. subst d. apply parseTasks_addressed.
  - rewrite listContainers_run.
    destruct (ContainerList _ _) as [containerList|]; [|by intros ?%elem_of_nil].
    cbn [fst]. intros [?%elem_of_nil|H]%listContainers_loop_elem; [done|].
    by destruct H as (_ & _ & _ & _ & _ & _ & _ & Hn).
Qed.

(** ** Addresses that are not in CIDR form *)

(** The endpoint written for a network when the address did not parse. *)
Definition nilEndpoint (networkService : NetworkResource) (networkID : string) : networkData :=
  {| nd_Name := net_Name networkService; nd_Addr := "<nil>"; nd_Port := 0;
     nd_Protocol := ""; nd_ID := networkID |}.

Lemma insert_keeps {A} (m : gmap string A) (i k : string) (x : A) :
  is_Some (m !! k) → is_Some (<[i := x]> m !! k).
Proof.
  intros H. destruct (decide (i = k)) as [->|Hne].
  - rewrite lookup_insert_eq. eauto.
  - by rewrite lookup_insert_ne.
Qed.

Lemma parseService_vip_keeps networkMap networks virtualIP k :
  is_Some (networks !! k) → is_Some (parseService_vip networkMap networks virtualIP !! k).
Proof.
  intros H. unfold parseService_vip.
  destruct (networkMap !! _); [|done]. destruct (0 <? _); [|done].
  by apply insert_keeps.
Qed.

Lemma parseTasks_addr_keeps networkID networkService networks addr k :
  is_Some (networks !! k) →
  is_Some (parseTasks_addr networkID networkService networks addr !! k).
Proof. apply insert_keeps. Qed.

Lemma parseTasks_attachment_keeps networkMap networks virtualIP k :
  is_Some (networks !! k) →
  is_Some (parseTasks_attachment networkMap networks virtualIP !! k).
Proof.
  intros H. unfold parseTasks_attachment.
  destruct (networkMap !! _); [|done]. destruct (0 <? _)%nat; [|done].
  apply fold_left_inv; [done|]. intros b a. apply parseTasks_addr_keeps.
Qed.

Lemma is_Some_lenMap {A} (m : gmap string A) k : is_Some (m !! k) → 0 < lenMap m.
Proof.
  intros [x Hx]. apply lenMap_pos. intros ->. by rewrite lookup_empty in Hx.
Qed.

Lemma parseService_vip_error networkMap networks virtualIP networkService :
  networkMap !! vip_NetworkID virtualIP = Some networkService →
  vip_Addr virtualIP ≠ EmptyString →
  ParseCIDR (vip_Addr virtualIP) = None →
  parseService_vip networkMap networks virtualIP
  = <[net_Name networkService := nilEndpoint networkService (vip_NetworkID virtualIP)]>
      networks.
Proof.
  intros Hnet Haddr Hcidr. unfold parseService_vip.
  rewrite Hnet. apply len_pos in Haddr. rewrite Haddr.
  by rewrite (cidrHost_error _ Hcidr).
Qed.

Lemma parseTasks_addr_error networkID networkService networks addr :
  ParseCIDR addr = None →
  parseTasks_addr networkID networkService networks addr
  = <[net_Name networkService := nilEndpoint networkService networkID]> networks.
Proof.
  intros Hcidr. unfold parseTasks_addr. by rewrite (cidrHost_error _ Hcidr).
Qed.

(** C10. A CIDR parse failure is ignored. For a virtual IP of a VIP-mode
    service, and for an address of a network attachment of a task, whose
    network is known and whose address string is not empty and not in CIDR
    form, the endpoint written for that network has the address ["<nil>"];
    the network map of the record is then not empty, so the record is kept
    by the enumeration rather than dropped. The endpoint is the final one of
    its network when no later address is written under the same name. *)
Theorem unparsable_address_yields_nil_endpoint
    (networkMap : gmap string NetworkResource) (networkService : NetworkResource) :
  (∀ service endpointSpec before virtualIP after,
     spec_EndpointSpec (svc_Spec service) = Some endpointSpec →
     eps_Mode endpointSpec = ResolutionModeVIP →
     ep_VirtualIPs (svc_Endpoint service) = before ++ virtualIP :: after →
     networkMap !! vip_NetworkID virtualIP = Some networkService →
     vip_Addr virtualIP ≠ EmptyString →
     ParseCIDR (vip_Addr virtualIP) = None →
     let dData := parseService service networkMap in
     let networks := Networks (NetworkSettings dData) in
     (∀ m, parseService_vip networkMap m virtualIP
           = <[net_Name networkService :=
                 nilEndpoint networkService (vip_NetworkID virtualIP)]> m)
     ∧ is_Some (networks !! net_Name networkService)
     ∧ 0 < lenMap networks
     ∧ (after = [] →
        networks !! net_Name networkService
        = Some (nilEndpoint networkService (vip_NetworkID virtualIP)))
     ∧ (isBackendLBSwarm dData = true →
        ∀ dockerClient w,
          dData ∈ (listServices_loop dockerClient [service] networkMap [] None w).1.1))
  ∧ (∀ task serviceDockerData isGlobalSvc before attachment after
       addrsBefore addr addrsAfter,
       task_NetworksAttachments task = before ++ attachment :: after →
       networkMap !! na_Network_ID attachment = Some networkService →
       na_Addresses attachment = addrsBefore ++ addr :: addrsAfter →
       addr ≠ EmptyString →
       ParseCIDR addr = None →
       let dData := parseTasks task serviceDockerData networkMap isGlobalSvc in
       let networks := Networks (NetworkSettings dData) in
       (∀ m, parseTasks_addr (na_Network_ID attachment) networkService m addr
             = <[net_Name networkService :=
                   nilEndpoint networkService (na_Network_ID attachment)]> m)
       ∧ is_Some (networks !! net_Name networkService)
       ∧ 0 < lenMap networks
       ∧ (after = [] → addrsAfter = [] →
          networks !! net_Name networkService
          = Some (nilEndpoint networkService (na_Network_ID attachment)))
       ∧ (task_Status_State task = TaskStateRunning →
          dData ∈ listTasks_loop [task] serviceDockerData networkMap isGlobalSvc [])).
Proof.
  split.
  - intros service endpointSpec before virtualIP after Hspec Hmode Hvips Hnet Haddr Hcidr.
    cbv zeta.
    assert (Networks (NetworkSettings (parseService service networkMap))
            = fold_left (parseService_vip networkMap) after
                (<[net_Name networkService :=
                     nilEndpoint networkService (vip_NetworkID virtualIP)]>
                   (fold_left (parseService_vip networkMap) before ∅))) as Hmap.
    { unfold parseService. rewrite Hspec, Hmode, Hvips. cbn.
      rewrite fold_left_app. cbn [fold_left].
      by rewrite (parseService_vip_error _ _ _ _ Hnet Haddr Hcidr). }
    assert (is_Some (Networks (NetworkSettings (parseService service networkMap))
                       !! net_Name networkService)) as Hsome.
    { rewrite Hmap. apply fold_left_inv; [|intros b a; apply parseService_vip_keeps].
      rewrite lookup_insert_eq. eauto. }
    split; [|split; [done|split; [by eapply is_Some_lenMap|split]]].
    + intros m. by apply parseService_vip_error.
    + intros ->. rewrite Hmap. cbn [fold_left]. apply lookup_insert_eq.
    + intros Hlb dockerClient w. rewrite listServices_loop_cons. cbv zeta.
      rewrite Hlb. apply is_Some_lenMap, Z.ltb_lt in Hsome. rewrite Hsome.
      cbn. set_solver.
  - intros task serviceDockerData isGlobalSvc before attachment after
      addrsBefore addr addrsAfter Hatt Hnet Haddrs Haddr Hcidr.
    cbv zeta.
    set (g := parseTasks_addr (na_Network_ID attachment) networkService).
    set (nil := nilEndpoint networkService (na_Network_ID attachment)).
    assert (∀ m, parseTasks_attachment networkMap m attachment
                 = fold_left g addrsAfter
                     (<[net_Name networkService := nil]> (fold_left g addrsBefore m)))
      as Hstep.
    { intros m. unfold parseTasks_attachment. rewrite Hnet, Haddrs.
      rewrite length_app. cbn [length].
      replace (0 <? _)%nat with true by (symmetry; apply Nat.ltb_lt; lia).
      rewrite fold_left_app. cbn [fold_left]. fold g.
      unfold g at 2. by rewrite (parseTasks_addr_error _ _ _ _ Hcidr). }
    assert (Networks (NetworkSettings
                        (parseTasks task serviceDockerData networkMap isGlobalSvc))
            = fold_left (parseTasks_attachment networkMap) after
                (fold_left g addrsAfter
                   (<[net_Name networkService := nil]>
                      (fold_left g addrsBefore
                         (fold_left (parseTasks_attachment networkMap) before ∅)))))
      as Hmap.
    { cbn. rewrite Hatt, fold_left_app. cbn [fold_left]. by rewrite Hstep. }
    assert (is_Some (Networks (NetworkSettings
                                 (parseTasks task serviceDockerData networkMap isGlobalSvc))
                       !! net_Name networkService)) as Hsome.
    { rewrite Hmap.
      apply fold_left_inv; [|intros b a; apply parseTasks_attachment_keeps].
      apply fold_left_inv; [|intros b a; apply parseTasks_addr_keeps].
      rewrite lookup_insert_eq. eauto. }
    split; [|split; [done|split; [by eapply is_Some_lenMap|split]]].
    + intros m. by apply parseTasks_addr_error.
    + intros -> ->. rewrite Hmap. cbn [fold_left]. apply lookup_insert_eq.
    + intros Hstate. apply listTasks_loop_elem.
      exists task. repeat split; try done; [by left|by eapply is_Some_lenMap].
Qed.

(** ** Services in DNSRR mode and failing task lists *)

Lemma parseService_dnsrr service networkMap endpointSpec :
  spec_EndpointSpec (svc_Spec service) = Some endpointSpec →
  eps_Mode endpointSpec = ResolutionModeDNSRR →
  Networks (NetworkSettings (parseService service networkMap)) = ∅.
Proof. intros Hspec Hmode. unfold parseService. by rewrite Hspec, Hmode. Qed.

(** C5, as the code has it. The record of a service in DNSRR mode has no
    network. The loop of [listServices] then lists the tasks of the service,
    one record per running task with a resolved network, only when
    [isBackendLBSwarm] is false for the record; when it is true the service
    is passed over: no task is listed and no record is added. *)
Theorem dnsrr_service_enumeration (dockerClient : Client) (service : Service)
    (rest : list Service) (networkMap : gmap string NetworkResource)
    (acc : list dockerData) (err : option error) (w : World)
    (endpointSpec : EndpointSpec) :
  spec_EndpointSpec (svc_Spec service) = Some endpointSpec →
  eps_Mode endpointSpec = ResolutionModeDNSRR →
  let dData := parseService service networkMap in
  Networks (NetworkSettings dData) = ∅
  ∧ (isBackendLBSwarm dData = true →
     listServices_loop dockerClient (service :: rest) networkMap acc err w
     = listServices_loop dockerClient rest networkMap acc err w)
  ∧ (isBackendLBSwarm dData = false →
     ∀ taskList,
       TaskList dockerClient (tick w) (serviceIDFilter (svc_ID service)) = Ok taskList →
       listServices_loop dockerClient (service :: rest) networkMap acc err w
       = listServices_loop dockerClient rest networkMap
           (acc ++ omap (taskRecord dData networkMap
                           (bool_decide (is_Some (mode_Global (spec_Mode (svc_Spec service))))))
                    taskList)
           None (called (CallTaskList (serviceIDFilter (svc_ID service))) w)).
Proof.
  intros Hspec Hmode. cbv zeta.
  pose proof (parseService_dnsrr service networkMap endpointSpec Hspec Hmode) as Hnone.
  split; [done|split].
  - intros Hlb. rewrite listServices_loop_cons. cbv zeta.
    by rewrite Hlb, Hnone.
  - intros Hlb taskList Htasks. rewrite listServices_loop_cons. cbv zeta.
    by rewrite Hlb, Htasks, listTasks_loop_spec.
Qed.

Lemma listServices_loop_app dockerClient l1 l2 networkMap acc err w :
  listServices_loop dockerClient (l1 ++ l2) networkMap acc err w
  = let r := listServices_loop dockerClient l1 networkMap acc err w in
    listServices_loop dockerClient l2 networkMap r.1.1 r.1.2 r.2.
Proof.
  revert acc err w. induction l1 as [|service rest IH]; intros acc err w; [done|].
  rewrite <- app_comm_cons, !listServices_loop_cons. cbv zeta.
  destruct (isBackendLBSwarm _); [apply IH|].
  destruct (TaskList _ _ _); apply IH.
Qed.

(** C2, on the code. When the task list of the last service fails, the loop
    of [listServices] returns the records of the services before it together
    with that error, not with a nil error. *)
Theorem listServices_last_task_error (dockerClient : Client)
    (serviceList : list Service) (service : Service)
    (networkMap : gmap string NetworkResource) (w : World) (e : error) :
  isBackendLBSwarm (parseService service networkMap) = false →
  let r := listServices_loop dockerClient serviceList networkMap [] None w in
  TaskList dockerClient (tick r.2) (serviceIDFilter (svc_ID service)) = Err e →
  (listServices_loop dockerClient (serviceList ++ [service]) networkMap [] None w).1
  = (r.1.1, Some e).
Proof.
  intros Hlb r Htasks. rewrite listServices_loop_app. cbv zeta. fold r.
  rewrite listServices_loop_cons. cbv zeta. by rewrite Hlb, Htasks.
Qed.

(** ** The watch handlers *)

Lemma listAndUpdateServices_run dockerClient w :
  listAndUpdateServices dockerClient w
  = let r := listServices dockerClient w in
    match r.1.2 with
    | Some err => (Some err, r.2)
    | None =>
        match buildConfiguration r.1.1 with
        | Some configuration => (None, sent (dockerMessage configuration) r.2)
        | None => (None, r.2)
        end
    end.
Proof.
  unfold listAndUpdateServices. run.
  destruct (listServices _ _) as [[l [e|]] w']; cbn; [done|].
  by destruct (buildConfiguration l).
Qed.

Lemma startStopHandle_run dockerClient m w :
  startStopHandle dockerClient m w
  = let r := listContainers dockerClient w in
    match r.1.2 with
    | Some _ => (tt, stopped r.2)
    | None =>
        match buildConfiguration r.1.1 with
        | Some configuration => (tt, sent (dockerMessage configuration) r.2)
        | None => (tt, r.2)
        end
    end.
Proof.
  unfold startStopHandle. run.
  destruct (listContainers _ _) as [[l [e|]] w']; cbn; [done|].
  by destruct (buildConfiguration l).
Qed.

Lemma listContainers_chan dockerClient w :
  chan (listContainers dockerClient w).2 = chan w.
Proof.
  by destruct (listContainers_extends dockerClient w) as (_ & _ & _ & _ & C & _).
Qed.

Lemma listServices_chan dockerClient w :
  chan (listServices dockerClient w).2 = chan w.
Proof.
  rewrite listServices_run.
  destruct (ServiceList _ _) as [serviceList|]; [|done]. cbv zeta.
  destruct (ServerVersion _ _) as [serverVersion|]; [|done].
  destruct (NetworkList _ _ _) as [networkList|]; [|done].
  by destruct (listServices_loop_extends dockerClient serviceList
                 (mkNetworkMap networkList) [] None
                 (called (CallNetworkList (networkListArgs (ver_APIVersion serverVersion)))
                    (called CallServerVersion (called CallServiceList w))))
    as (_ & _ & _ & _ & C & _).
Qed.

Lemma operation_start_run swarmMode dockerClient w :
  operation_start swarmMode dockerClient w
  = match ServerVersion dockerClient (tick w) with
    | Err err => (Some err, called CallServerVersion w)
    | Ok _ =>
        let r := (if swarmMode then listServices dockerClient
                  else listContainers dockerClient) (called CallServerVersion w) in
        match r.1.2 with
        | Some err => (Some err, r.2)
        | None =>
            (None, sent {| ProviderName := "docker";
                           Configuration_ := buildConfiguration r.1.1 |} r.2)
        end
    end.
Proof.
  unfold operation_start. run.
  destruct (ServerVersion _ _); [|done].
  by destruct swarmMode;
    [destruct (listServices _ _) as [[l [e|]] w']
    |destruct (listContainers _ _) as [[l [e|]] w']].
Qed.

(** The first pass sends one message when the handshake and the enumeration
    succeed, also when no configuration could be built. *)
Lemma operation_start_publishes (swarmMode : bool) (dockerClient : Client) (w : World)
    (serverVersion : Version) :
  ServerVersion dockerClient (tick w) = Ok serverVersion →
  let r := (if swarmMode then listServices dockerClient else listContainers dockerClient)
             (called CallServerVersion w) in
  r.1.2 = None →
  (operation_start swarmMode dockerClient w).1 = None
  ∧ chan (operation_start swarmMode dockerClient w).2
    = chan w ++ [{| ProviderName := "docker";
                    Configuration_ := buildConfiguration r.1.1 |}].
Proof.
  intros Hv r Hok. rewrite operation_start_run, Hv. cbv zeta. fold r. rewrite Hok.
  split; [done|]. cbn [snd chan sent]. f_equal.
  subst r. destruct swarmMode; [by rewrite listServices_chan|by rewrite listContainers_chan].
Qed.

(** C1, as the code has it. When the task list of the service of the event
    cannot be fetched, the callback returns at once: the only call made is
    that task list, the services are not enumerated, nothing is sent on the
    channel and the callback does not wait. *)
Theorem callbackFunc_task_list_failure (fuel : nat) (dockerClient : Client)
    (msg : Message) (w : World) (e : error) :
  msg_Actor_ID msg ≠ EmptyString →
  TaskList dockerClient (tick w) (serviceIDFilter (msg_Actor_ID msg)) = Err e →
  callbackFunc (S fuel) dockerClient msg w
  = (Some tt, called (CallTaskList (serviceIDFilter (msg_Actor_ID msg))) w).
Proof.
  intros Hid Htasks. cbn [callbackFunc].
  destruct (String.eqb_spec (msg_Actor_ID msg) "") as [|_]; [done|].
  cbn [negb]. unfold mbind, M_bind, call.
  change (NewArgs _) with (serviceIDFilter (msg_Actor_ID msg)).
  by rewrite Htasks.
Qed.

(** The number of container listings made so far. *)
Definition enumerations (w : World) : nat :=
  count_occ Call_eq_dec (trace w) CallContainerList.

Lemma enumerations_extends w w' :
  extends isInspectCall w w' → enumerations w' = enumerations w.
Proof.
  intros (calls & T & F & _). unfold enumerations. rewrite T, count_occ_app.
  rewrite (proj1 (count_occ_not_In Call_eq_dec calls CallContainerList)); [done|].
  intros Hin. rewrite Forall_forall in F.
  apply list_elem_of_In, F in Hin as [id Hid]. discriminate.
Qed.

Lemma startStopHandle_trace dockerClient m w :
  trace (startStopHandle dockerClient m w).2 = trace (listContainers dockerClient w).2
  ∧ chan (startStopHandle dockerClient m w).2
    = chan w ++ match (listContainers dockerClient w).1.2,
                      buildConfiguration (listContainers dockerClient w).1.1 with
                | None, Some configuration => [dockerMessage configuration]
                | _, _ => []
                end.
Proof.
  rewrite startStopHandle_run. cbv zeta.
  destruct (listContainers_extends dockerClient w) as (calls & _ & _ & _ & C & _).
  cbn [chan called] in C.
  destruct (listContainers dockerClient w).1.2; cbn.
  - by rewrite C, app_nil_r.
  - destruct (buildConfiguration _); cbn; by rewrite C, ?app_nil_r.
Qed.

Lemma startStopHandle_enumerations dockerClient m w :
  enumerations (startStopHandle dockerClient m w).2 = S (enumerations w).
Proof.
  unfold enumerations at 1.
  rewrite (proj1 (startStopHandle_trace dockerClient m w)).
  fold (enumerations (listContainers dockerClient w).2).
  rewrite (enumerations_extends _ _ (listContainers_extends dockerClient w)).
  unfold enumerations. cbn [trace called count_occ].
  by destruct (Call_eq_dec _ _).
Qed.

Lemma prefix_app (pre s : string) :
  String.prefix pre s = true ↔ ∃ rest, s = pre +:+ rest.
Proof.
  revert s. induction pre as [|a pre IH]; intros [|b s]; cbn.
  - split; [|done]. intros _. by exists EmptyString.
  - split; [|done]. intros _. by exists (String b s).
  - split; [done|]. by intros (rest & ?).
  - destruct (ascii_dec a b) as [->|Hne].
    + rewrite IH. split; intros (rest & H); exists rest.
      * by rewrite H.
      * by injection H.
    + split; [done|]. intros (rest & [= ? ?]). done.
Qed.

(** C8. In the standalone watch loop an event triggers a new enumeration
    exactly when its action is "start", is "die", or begins with
    "health_status": such an event lists the containers once, any other event
    changes nothing (no call, nothing sent). Over the events the loop
    receives, the containers are listed once per such event. *)
Theorem watchEvent_triggers (dockerClient : Client) (event : Message) (w : World) :
  (isWatchedAction (msg_Action event) = true
   ↔ msg_Action event = "start"%string ∨ msg_Action event = "die"%string
     ∨ ∃ rest, msg_Action event = "health_status" +:+ rest)
  ∧ (isWatchedAction (msg_Action event) = true →
     enumerations (watchEvent dockerClient event w).2 = S (enumerations w))
  ∧ (isWatchedAction (msg_Action event) = false →
     watchEvent dockerClient event w = (tt, w))
  ∧ ∀ items,
      enumerations (watchLoop dockerClient items w).2
      = (enumerations w
         + length (List.filter (λ event, isWatchedAction (msg_Action event))
                     (received items)))%nat.
Proof.
  split; [|split; [|split]].
  - unfold isWatchedAction, HasPrefix.
    rewrite !orb_true_iff, !String.eqb_eq, prefix_app. tauto.
  - intros H. unfold watchEvent. rewrite H. apply startStopHandle_enumerations.
  - intros H. unfold watchEvent. by rewrite H.
  - intros items. revert w. induction items as [|[event'|err] rest IH]; intros w.
    + cbn. lia.
    + cbn [watchLoop received List.filter]. unfold mbind, M_bind.
      destruct (watchEvent dockerClient event' w) as [[] w'] eqn:Hstep.
      rewrite IH. unfold watchEvent in Hstep.
      destruct (isWatchedAction _).
      * pose proof (startStopHandle_enumerations dockerClient event' w) as He.
        rewrite Hstep in He. cbn [snd] in He. rewrite He. cbn [length]. lia.
      * injection Hstep as <-. lia.
    + cbn. lia.
Qed.

(** C9, as the code has it. After an event of the standalone watch loop that
    triggers an enumeration, when the container listing succeeds, the
    snapshot is sent on the channel exactly when [buildConfiguration] returns
    a configuration for it, and nothing is sent when it returns nil; whether
    the list of records is empty plays no part. *)
Theorem startStopHandle_publishes (dockerClient : Client) (event : Message) (w : World) :
  isWatchedAction (msg_Action event) = true →
  (listContainers dockerClient w).1.2 = None →
  chan (watchEvent dockerClient event w).2
  = chan w ++ match buildConfiguration (listContainers dockerClient w).1.1 with
              | Some configuration => [dockerMessage configuration]
              | None => []
              end.
Proof.
  intros Hwatched Hok. unfold watchEvent. rewrite Hwatched.
  rewrite (proj2 (startStopHandle_trace dockerClient event w)). by rewrite Hok.
Qed.
(** * Further properties of the enumeration passes *)

(** ** The records and the calls of [listContainers] *)

(** The record a container yields when it is inspected as call number [t]:
    the inspection succeeds, the container runs, its name is not empty. *)
Definition containerRecord (dockerClient : Client) (t : nat) (container : Container)
    : option dockerData :=
  match ContainerInspect dockerClient t (container_ID container) with
  | Ok containerInspected =>
      if isRunning containerInspected
         && (0 <? len (Name (parseContainer containerInspected)))
      then Some (parseContainer containerInspected)
      else None
  | Err _ => None
  end.

(** The records of a container list inspected from call number [t] on. *)
Fixpoint containerRecords (dockerClient : Client) (t : nat) (containerList : list Container)
    : list dockerData :=
  match containerList with
  | [] => []
  | container :: rest =>
      option_list (containerRecord dockerClient t container)
        ++ containerRecords dockerClient (S t) rest
  end.

Definition inspectCall (container : Container) : Call :=
  CallContainerInspect (container_ID container).

Lemma listContainers_loop_spec dockerClient containerList acc w :
  (listContainers_loop dockerClient containerList acc w).1
  = acc ++ containerRecords dockerClient (tick w) containerList
  ∧ tick (listContainers_loop dockerClient containerList acc w).2
    = (tick w + length containerList)%nat
  ∧ trace (listContainers_loop dockerClient containerList acc w).2
    = rev (map inspectCall containerList) ++ trace w.
Proof.
  revert acc w. induction containerList as [|container rest IH]; intros acc w.
  - cbn. rewrite app_nil_r, Nat.add_0_r. done.
  - rewrite listContainers_loop_cons. cbv zeta. rewrite inspectContainers_run.
    cbn [fst snd].
    destruct (IH (if 0 <? len (Name
                     match ContainerInspect dockerClient (tick w) (container_ID container) with
                     | Ok ci => if isRunning ci then parseContainer ci else dockerData0
                     | Err _ => dockerData0
                     end)
                  then acc ++ [match ContainerInspect dockerClient (tick w)
                                       (container_ID container) with
                               | Ok ci => if isRunning ci then parseContainer ci
                                          else dockerData0
                               | Err _ => dockerData0
                               end]
                  else acc)
                (called (CallContainerInspect (container_ID container)) w))
      as (Hrec & Htick & Htrace).
    rewrite Hrec, Htick, Htrace. cbn [tick trace called length map rev containerRecords].
    split; [|split; [lia|by rewrite <- app_assoc]].
    unfold containerRecord.
    destruct (ContainerInspect _ _ _) as [ci|e]; [|by cbn; rewrite ?app_nil_r].
    destruct (isRunning ci); [|by cbn].
    cbn [andb]. destruct (0 <? _); cbn; [by rewrite <- app_assoc|done].
Qed.

(** X1. When the container list is fetched, [listContainers] returns, in the
    order of that list, the record of exactly the containers whose inspection
    succeeds, that run and whose name is not empty, with a nil error; the
    records are never more than the containers listed. *)
Theorem listContainers_records (dockerClient : Client) (w : World)
    (containerList : list Container) :
  ContainerList dockerClient (tick w) = Ok containerList →
  (listContainers dockerClient w).1
  = (containerRecords dockerClient (S (tick w)) containerList, None)
  ∧ (length (listContainers dockerClient w).1.1 ≤ length containerList)%nat.
Proof.
  intros Hlist. rewrite listContainers_run, Hlist. cbv zeta. cbn [fst snd].
  rewrite (proj1 (listContainers_loop_spec dockerClient containerList []
                    (called CallContainerList w))).
  cbn [tick called app]. split; [done|]. clear Hlist.
  generalize (S (tick w)). induction containerList as [|container rest IH]; intros t.
  - done.
  - cbn [containerRecords length]. rewrite length_app. specialize (IH (S t)).
    destruct (containerRecord _ _ _); cbn; lia.
Qed.

(** X2. [listContainers] lists the containers once and then inspects every
    listed container exactly once, in list order, whether or not it yields a
    record; when the listing fails it inspects nothing and returns no record
    together with the error. *)
Theorem listContainers_calls (dockerClient : Client) (w : World) :
  match ContainerList dockerClient (tick w) with
  | Ok containerList =>
      trace (listContainers dockerClient w).2
      = rev (map inspectCall containerList) ++ CallContainerList :: trace w
  | Err err =>
      listContainers dockerClient w = (([], Some err), called CallContainerList w)
  end.
Proof.
  rewrite listContainers_run. destruct (ContainerList _ _) as [containerList|err]; [|done].
  cbv zeta. cbn [snd].
  by rewrite (proj2 (proj2 (listContainers_loop_spec dockerClient containerList []
                              (called CallContainerList w)))).
Qed.

(** ** Maps filled by a loop of writes

    The loops that fill a map of endpoints go over a list and, for each item,
    write at most one entry. [step] gives the entry an item writes. *)

Section Writes.

Context {A V : Type} (step : A → option (string * V)).

Definition applyWrite (m : gmap string V) (x : A) : gmap string V :=
  match step x with
  | Some (k, v) => <[k := v]> m
  | None => m
  end.

(** No item of the list writes under the key. *)
Definition unwritten (k : string) (l : list A) : Prop :=
  ∀ x v, x ∈ l → step x ≠ Some (k, v).

Lemma fold_writes_unwritten k l m :
  unwritten k l → fold_left applyWrite l m !! k = m !! k.
Proof.
  revert m. induction l as [|x l IH]; intros m Hl; [done|].
  cbn [fold_left]. rewrite IH.
  - unfold applyWrite. destruct (step x) as [[k' v]|] eqn:Hx; [|done].
    apply lookup_insert_ne. intros ->. by apply (Hl x v); [left|].
  - intros x' v Hin. apply Hl. by right.
Qed.

Lemma fold_writes_last k v before x after m :
  step x = Some (k, v) → unwritten k after →
  fold_left applyWrite (before ++ x :: after) m !! k = Some v.
Proof.
  intros Hx Hafter. rewrite fold_left_app. cbn [fold_left].
  rewrite fold_writes_unwritten; [|done].
  unfold applyWrite. rewrite Hx. apply lookup_insert_eq.
Qed.

Lemma fold_writes_lookup k v l m :
  fold_left applyWrite l m !! k = Some v →
  (m !! k = Some v ∧ unwritten k l)
  ∨ ∃ before x after, l = before ++ x :: after ∧ step x = Some (k, v) ∧ unwritten k after.
Proof.
  induction l as [|x l IH] using rev_ind.
  - cbn. intros H. left. split; [done|]. by intros x v' ?%elem_of_nil.
  - rewrite fold_left_app. cbn [fold_left]. unfold applyWrite at 1.
    destruct (step x) as [[k' v']|] eqn:Hx.
    + destruct (decide (k' = k)) as [->|Hne].
      * rewrite lookup_insert_eq. intros [= ->]. right.
        exists l, x, []. repeat split; [done|]. by intros x' v' ?%elem_of_nil.
      * rewrite lookup_insert_ne by done.
        intros [[Hm Hl]|(before & y & after & -> & Hy & Hafter)]%IH.
        -- left. split; [done|]. intros x' v'' [Hin|Hin%list_elem_of_singleton]%elem_of_app.
           ++ by apply Hl.
           ++ subst x'. rewrite Hx. congruence.
        -- right. exists before, y, (after ++ [x]).
           rewrite <- app_assoc. repeat split; [done|].
           intros x' v'' [Hin|Hin%list_elem_of_singleton]%elem_of_app.
           ++ by apply Hafter.
           ++ subst x'. rewrite Hx. congruence.
    + intros [[Hm Hl]|(before & y & after & -> & Hy & Hafter)]%IH.
      * left. split; [done|]. intros x' v'' [Hin|Hin%list_elem_of_singleton]%elem_of_app.
        -- by apply Hl.
        -- subst x'. by rewrite Hx.
      * right. exists before, y, (after ++ [x]).
        rewrite <- app_assoc. repeat split; [done|].
        intros x' v'' [Hin|Hin%list_elem_of_singleton]%elem_of_app.
        -- by apply Hafter.
        -- subst x'. by rewrite Hx.
Qed.

Lemma fold_writes_some k v x l m :
  x ∈ l → step x = Some (k, v) → is_Some (fold_left applyWrite l m !! k).
Proof.
  intros (before & after & ->)%list_elem_of_split Hx.
  rewrite fold_left_app. cbn [fold_left].
  apply fold_left_inv.
  - unfold applyWrite at 1. rewrite Hx, lookup_insert_eq. eauto.
  - intros b a Hb. unfold applyWrite. destruct (step a) as [[k' v']|]; [|done].
    by apply insert_keeps.
Qed.

Lemma fold_left_ext {B C} (f g : B → C → B) (l : list C) (b : B) :
  (∀ b c, f b c = g b c) → fold_left f l b = fold_left g l b.
Proof.
  intros H. revert b. induction l as [|c l IH]; intros b; cbn; [done|].
  by rewrite H, IH.
Qed.

End Writes.

(** ** The map of the networks *)

(** X3. [listServices] files every listed network under its ID: an entry of
    the map is a listed network stored under its own ID, every listed network
    has an entry under its ID, and when several listed networks share an ID
    the entry is the last of them. *)
Theorem mkNetworkMap_lookup (networkList : list NetworkResource) :
  (∀ id network,
     mkNetworkMap networkList !! id = Some network →
     network ∈ networkList ∧ net_ID network = id)
  ∧ (∀ network,
       network ∈ networkList →
       is_Some (mkNetworkMap networkList !! net_ID network))
  ∧ (∀ before network after,
       networkList = before ++ network :: after →
       (∀ network', network' ∈ after → net_ID network' ≠ net_ID network) →
       mkNetworkMap networkList !! net_ID network = Some network).
Proof.
  set (step := λ network : NetworkResource, Some (net_ID network, network)).
  assert (mkNetworkMap networkList = fold_left (applyWrite step) networkList ∅) as ->.
  { unfold mkNetworkMap. by apply fold_left_ext. }
  split; [|split].
  - intros id network [[H _]|(before & x & after & -> & [= <- <-] & _)]
             %fold_writes_lookup.
    + by rewrite lookup_empty in H.
    + split; [|done]. apply elem_of_app. right. by left.
  - intros network Hin. by eapply fold_writes_some.
  - intros before network after -> Hafter. apply fold_writes_last; [done|].
    intros x v Hin [= Hid _]. by apply (Hafter x).
Qed.

(** ** The endpoints of a service record *)

(** A virtual IP resolves when its network is known and its address is not
    empty; it then writes this endpoint under the name of the network. *)
Definition vipResolves (networkMap : gmap string NetworkResource)
    (virtualIP : EndpointVirtualIP) (networkService : NetworkResource) : Prop :=
  networkMap !! vip_NetworkID virtualIP = Some networkService
  ∧ vip_Addr virtualIP ≠ EmptyString.

Definition vipEndpoint (networkService : NetworkResource) (virtualIP : EndpointVirtualIP)
    : networkData :=
  {| nd_Name := net_Name networkService; nd_Addr := cidrHost (vip_Addr virtualIP);
     nd_Port := 0; nd_Protocol := ""; nd_ID := vip_NetworkID virtualIP |}.

Definition vipWrite (networkMap : gmap string NetworkResource)
    (virtualIP : EndpointVirtualIP) : option (string * networkData) :=
  match networkMap !! vip_NetworkID virtualIP with
  | Some networkService =>
      if 0 <? len (vip_Addr virtualIP)
      then Some (net_Name networkService, vipEndpoint networkService virtualIP)
      else None
  | None => None
  end.

Lemma parseService_vip_write networkMap networks virtualIP :
  parseService_vip networkMap networks virtualIP
  = applyWrite (vipWrite networkMap) networks virtualIP.
Proof.
  unfold parseService_vip, applyWrite, vipWrite.
  destruct (networkMap !! _); [|done]. by destruct (0 <? _).
Qed.

Lemma vipWrite_Some networkMap virtualIP name network :
  vipWrite networkMap virtualIP = Some (name, network)
  ↔ ∃ networkService, vipResolves networkMap virtualIP networkService
                      ∧ net_Name networkService = name
                      ∧ network = vipEndpoint networkService virtualIP.
Proof.
  unfold vipWrite, vipResolves. split.
  - destruct (networkMap !! _) as [networkService|]; [|done].
    destruct (0 <? _) eqn:Hlen; [|done]. intros [= <- <-].
    exists networkService. by apply len_pos in Hlen.
  - intros (networkService & [-> Haddr] & <- & ->).
    apply len_pos in Haddr. by rewrite Haddr.
Qed.

Lemma parseService_networks service networkMap :
  Networks (NetworkSettings (parseService service networkMap))
  = match spec_EndpointSpec (svc_Spec service) with
    | Some endpointSpec =>
        if String.eqb (eps_Mode endpointSpec) ResolutionModeVIP
        then fold_left (applyWrite (vipWrite networkMap))
               (ep_VirtualIPs (svc_Endpoint service)) ∅
        else ∅
    | None => ∅
    end.
Proof.
  unfold parseService. destruct (spec_EndpointSpec _) as [endpointSpec|]; [|done].
  destruct (String.eqb_spec (eps_Mode endpointSpec) ResolutionModeDNSRR) as [->|_];
    [done|].
  destruct (String.eqb _ ResolutionModeVIP); [|done]. cbn.
  apply fold_left_ext. intros b c. apply parseService_vip_write.
Qed.

(** X4. The endpoints of a service record. The record has an endpoint under
    a network name exactly when the service is in VIP mode and some virtual
    IP resolves (known network, non-empty address) to a network of that name;
    the endpoint is then that of the last such virtual IP, with the ID of its
    network and the host part of its address. A virtual IP of an unknown
    network or without address adds nothing, and a service that is not in VIP
    mode has no endpoint. *)
Theorem parseService_endpoint (service : Service)
    (networkMap : gmap string NetworkResource) (name : string) (network : networkData) :
  (Networks (NetworkSettings (parseService service networkMap)) !! name = Some network
   ↔ ∃ endpointSpec before virtualIP after networkService,
       spec_EndpointSpec (svc_Spec service) = Some endpointSpec
       ∧ eps_Mode endpointSpec = ResolutionModeVIP
       ∧ ep_VirtualIPs (svc_Endpoint service) = before ++ virtualIP :: after
       ∧ vipResolves networkMap virtualIP networkService
       ∧ net_Name networkService = name
       ∧ network = vipEndpoint networkService virtualIP
       ∧ ∀ virtualIP' networkService',
           virtualIP' ∈ after →
           vipResolves networkMap virtualIP' networkService' →
           net_Name networkService' ≠ name)
  ∧ (Networks (NetworkSettings (parseService service networkMap)) ≠ ∅
     ↔ ∃ endpointSpec virtualIP networkService,
         spec_EndpointSpec (svc_Spec service) = Some endpointSpec
         ∧ eps_Mode endpointSpec = ResolutionModeVIP
         ∧ virtualIP ∈ ep_VirtualIPs (svc_Endpoint service)
         ∧ vipResolves networkMap virtualIP networkService).
Proof.
  assert (∀ name network,
            Networks (NetworkSettings (parseService service networkMap)) !! name
            = Some network
            ↔ ∃ endpointSpec before virtualIP after networkService,
                spec_EndpointSpec (svc_Spec service) = Some endpointSpec
                ∧ eps_Mode endpointSpec = ResolutionModeVIP
                ∧ ep_VirtualIPs (svc_Endpoint service) = before ++ virtualIP :: after
                ∧ vipResolves networkMap virtualIP networkService
                ∧ net_Name networkService = name
                ∧ network = vipEndpoint networkService virtualIP
                ∧ ∀ virtualIP' networkService',
                    virtualIP' ∈ after →
                    vipResolves networkMap virtualIP' networkService' →
                    net_Name networkService' ≠ name) as Hlookup.
  { clear name network. intros name network. rewrite parseService_networks. split.
    - destruct (spec_EndpointSpec _) as [endpointSpec|]; [|by rewrite lookup_empty].
      destruct (String.eqb_spec (eps_Mode endpointSpec) ResolutionModeVIP) as [Hmode|_];
        [|by rewrite lookup_empty].
      intros [[H _]|(before & virtualIP & after & Hvips & Hw & Hafter)]%fold_writes_lookup;
        [by rewrite lookup_empty in H|].
      apply vipWrite_Some in Hw as (networkService & Hres & Hname & Hnet).
      exists endpointSpec, before, virtualIP, after, networkService.
      repeat split; try done; try apply Hres.
      intros virtualIP' networkService' Hin Hres' Hname'.
      apply (Hafter virtualIP' (vipEndpoint networkService' virtualIP') Hin).
      apply vipWrite_Some. by exists networkService'.
    - intros (endpointSpec & before & virtualIP & after & networkService
              & -> & -> & -> & Hres & Hname & -> & Hafter).
      cbn. apply fold_writes_last.
      + apply vipWrite_Some. by exists networkService.
      + intros virtualIP' network' Hin (networkService' & Hres' & Hname' & _)%vipWrite_Some.
        by apply (Hafter virtualIP' networkService'). }
  split; [apply Hlookup|]. split.
  - intros (name' & network' & H)%map_choose.
    apply Hlookup in H
      as (endpointSpec & before & virtualIP & after & networkService
          & Hspec & Hmode & Hvips & Hres & _).
    exists endpointSpec, virtualIP, networkService. repeat split; try done; try apply Hres.
    rewrite Hvips. apply elem_of_app. right. by left.
  - intros (endpointSpec & virtualIP & networkService & Hspec & Hmode & Hin & Hres).
    rewrite parseService_networks, Hspec, Hmode. cbn.
    assert (is_Some (fold_left (applyWrite (vipWrite networkMap))
                       (ep_VirtualIPs (svc_Endpoint service)) ∅
                       !! net_Name networkService)) as [x Hx].
    { eapply fold_writes_some; [done|]. apply vipWrite_Some. by exists networkService. }
    intros Hempty. by rewrite Hempty, lookup_empty in Hx.
Qed.

(** ** The endpoints of a task record *)

Definition taskEndpoint (networkService : NetworkResource) (networkID addr : string)
    : networkData :=
  {| nd_Name := net_Name networkService; nd_Addr := cidrHost addr;
     nd_Port := 0; nd_Protocol := ""; nd_ID := networkID |}.

(** An attachment writes one endpoint when its network is known and it has an
    address: that of its last address. *)
Definition attachmentWrite (networkMap : gmap string NetworkResource)
    (attachment : NetworkAttachment) : option (string * networkData) :=
  match networkMap !! na_Network_ID attachment with
  | Some networkService =>
      match last (na_Addresses attachment) with
      | Some addr =>
          Some (net_Name networkService,
                taskEndpoint networkService (na_Network_ID attachment) addr)
      | None => None
      end
  | None => None
  end.

Lemma parseTasks_addr_fold networkID networkService addrs addr networks :
  parseTasks_addr networkID networkService
    (fold_left (parseTasks_addr networkID networkService) addrs networks) addr
  = <[net_Name networkService := taskEndpoint networkService networkID addr]> networks.
Proof.
  revert networks. induction addrs as [|a addrs IH]; intros networks; [done|].
  cbn [fold_left]. rewrite IH. unfold parseTasks_addr at 1. cbn.
  apply insert_insert_eq.
Qed.

Lemma parseTasks_attachment_write networkMap networks attachment :
  parseTasks_attachment networkMap networks attachment
  = applyWrite (attachmentWrite networkMap) networks attachment.
Proof.
  unfold parseTasks_attachment, applyWrite, attachmentWrite.
  destruct (networkMap !! _) as [networkService|]; [|done].
  destruct (na_Addresses attachment) as [|a addrs] using rev_ind; [done|].
  rewrite last_snoc, length_app. cbn [length].
  replace (0 <? _)%nat with true by (symmetry; apply Nat.ltb_lt; lia).
  rewrite fold_left_app. cbn [fold_left]. apply parseTasks_addr_fold.
Qed.

Lemma attachmentWrite_Some networkMap attachment name network :
  attachmentWrite networkMap attachment = Some (name, network)
  ↔ ∃ networkService addrs addr,
      networkMap !! na_Network_ID attachment = Some networkService
      ∧ na_Addresses attachment = addrs ++ [addr]
      ∧ net_Name networkService = name
      ∧ network = taskEndpoint networkService (na_Network_ID attachment) addr.
Proof.
  unfold attachmentWrite. split.
  - destruct (networkMap !! _) as [networkService|]; [|done].
    destruct (last _) as [addr|] eqn:Hlast; [|done]. intros [= <- <-].
    apply last_Some in Hlast as [addrs Haddrs].
    by exists networkService, addrs, addr.
  - intros (networkService & addrs & addr & -> & -> & <- & ->). by rewrite last_snoc.
Qed.

(** X5. The endpoints of a task record. The record has an endpoint under a
    network name exactly when some network attachment of the task has a known
    network of that name and at least one address; the endpoint is then that
    of the last such attachment and carries the host part of the last of its
    addresses: of several addresses on one network only the last is kept. An
    attachment of an unknown network adds nothing. *)
Theorem parseTasks_endpoint (task : Task) (serviceDockerData : dockerData)
    (networkMap : gmap string NetworkResource) (isGlobalSvc : bool)
    (name : string) (network : networkData) :
  Networks (NetworkSettings (parseTasks task serviceDockerData networkMap isGlobalSvc))
    !! name = Some network
  ↔ ∃ before attachment after networkService addrs addr,
      task_NetworksAttachments task = before ++ attachment :: after
      ∧ networkMap !! na_Network_ID attachment = Some networkService
      ∧ na_Addresses attachment = addrs ++ [addr]
      ∧ net_Name networkService = name
      ∧ network = taskEndpoint networkService (na_Network_ID attachment) addr
      ∧ ∀ attachment' networkService',
          attachment' ∈ after →
          networkMap !! na_Network_ID attachment' = Some networkService' →
          na_Addresses attachment' ≠ [] →
          net_Name networkService' ≠ name.
Proof.
  cbn [parseTasks NetworkSettings Networks].
  rewrite (fold_left_ext _ (applyWrite (attachmentWrite networkMap)))
    by apply parseTasks_attachment_write.
  split.
  - intros [[H _]|(before & attachment & after & Hatt & Hw & Hafter)]%fold_writes_lookup;
      [by rewrite lookup_empty in H|].
    apply attachmentWrite_Some in Hw as (networkService & addrs & addr & Hnet & Haddrs & Hname & Hn).
    exists before, attachment, after, networkService, addrs, addr.
    repeat split; try done.
    intros attachment' networkService' Hin Hnet' Haddrs' Hname'.
    destruct (na_Addresses attachment') as [|a' addrs'] eqn:Ha' using rev_ind; [done|].
    apply (Hafter attachment'
             (taskEndpoint networkService' (na_Network_ID attachment') a') Hin).
    apply attachmentWrite_Some. by exists networkService', addrs', a'.
  - intros (before & attachment & after & networkService & addrs & addr
            & -> & Hnet & Haddrs & Hname & -> & Hafter).
    apply fold_writes_last.
    + apply attachmentWrite_Some. by exists networkService, addrs, addr.
    + intros attachment' network' Hin
        (networkService' & addrs' & addr' & Hnet' & Haddrs' & Hname' & _)%attachmentWrite_Some.
      apply (Hafter attachment' networkService'); try done.
      rewrite Haddrs'. by destruct addrs'.
Qed.

(** ** The records of [listTasks] *)

(** X6. When the task list of a service is fetched, [listTasks] returns with
    a nil error, in the order of that list, the record of exactly the tasks
    that run and resolve at least one network: every such task has its
    record, there are never more records than tasks, and every record
    carries the name of the service as [ServiceName] and the labels of the
    service. *)
Theorem listTasks_records (dockerClient : Client) (serviceID : string)
    (serviceDockerData : dockerData) (networkMap : gmap string NetworkResource)
    (isGlobalSvc : bool) (w : World) (taskList : list Task) :
  TaskList dockerClient (tick w) (serviceIDFilter serviceID) = Ok taskList →
  let r := (listTasks dockerClient serviceID serviceDockerData networkMap isGlobalSvc w).1 in
  r = (omap (taskRecord serviceDockerData networkMap isGlobalSvc) taskList, None)
  ∧ (∀ task,
       task ∈ taskList →
       task_Status_State task = TaskStateRunning →
       Networks (NetworkSettings
                   (parseTasks task serviceDockerData networkMap isGlobalSvc)) ≠ ∅ →
       parseTasks task serviceDockerData networkMap isGlobalSvc ∈ r.1)
  ∧ (∀ d, d ∈ r.1 →
          ServiceName d = Name serviceDockerData ∧ Labels d = Labels serviceDockerData)
  ∧ (length r.1 ≤ length taskList)%nat.
Proof.
  intros Htasks. cbv zeta. rewrite listTasks_run, Htasks. cbn [fst snd].
  split; [by rewrite listTasks_loop_spec|split; [|split]].
  - intros task Hin Hstate Hnet. apply listTasks_loop_elem.
    exists task. repeat split; try done. by apply lenMap_pos.
  - by intros d (task & _ & _ & _ & ->)%listTasks_loop_elem.
  - rewrite listTasks_loop_spec. cbn [app]. clear Htasks.
    induction taskList as [|task rest IH]; [done|].
    cbn [omap list_omap length]. destruct (taskRecord _ _ _ _); cbn [length]; lia.
Qed.

(** ** The records, the error and the calls of [listServices] *)

(** The task list call of a service. *)
Definition taskCall (service : Service) : Call :=
  CallTaskList (serviceIDFilter (svc_ID service)).

(** The service is resolved through its tasks. *)
Definition byTasks (networkMap : gmap string NetworkResource) (service : Service) : bool :=
  negb (isBackendLBSwarm (parseService service networkMap)).

(** What one service adds to the records, its task list being call number [t]. *)
Definition serviceRecords (dockerClient : Client)
    (networkMap : gmap string NetworkResource) (t : nat) (service : Service)
    : list dockerData :=
  let dData := parseService service networkMap in
  if isBackendLBSwarm dData then
    if 0 <? lenMap (Networks (NetworkSettings dData)) then [dData] else []
  else
    match TaskList dockerClient t (serviceIDFilter (svc_ID service)) with
    | Ok taskList =>
        omap (taskRecord dData networkMap
                (bool_decide (is_Some (mode_Global (spec_Mode (svc_Spec service))))))
          taskList
    | Err _ => []
    end.

(** The records of a service list, the first task list being call number [t]. *)
Fixpoint swarmRecords (dockerClient : Client) (networkMap : gmap string NetworkResource)
    (t : nat) (serviceList : list Service) : list dockerData :=
  match serviceList with
  | [] => []
  | service :: rest =>
      serviceRecords dockerClient networkMap t service
        ++ swarmRecords dockerClient networkMap
             (if byTasks networkMap service then S t else t) rest
  end.

(** The error of the task list of a service, nil when it is fetched. *)
Definition taskListError (dockerClient : Client) (t : nat) (service : Service)
    : option error :=
  match TaskList dockerClient t (serviceIDFilter (svc_ID service)) with
  | Ok _ => None
  | Err e => Some e
  end.

Lemma listServices_loop_step dockerClient service rest networkMap acc err w :
  listServices_loop dockerClient (service :: rest) networkMap acc err w
  = if byTasks networkMap service then
      listServices_loop dockerClient rest networkMap
        (acc ++ serviceRecords dockerClient networkMap (tick w) service)
        (taskListError dockerClient (tick w) service)
        (called (taskCall service) w)
    else
      listServices_loop dockerClient rest networkMap
        (acc ++ serviceRecords dockerClient networkMap (tick w) service) err w.
Proof.
  rewrite listServices_loop_cons. cbv zeta.
  unfold byTasks, serviceRecords, taskListError, taskCall.
  destruct (isBackendLBSwarm _); cbn [negb].
  - destruct (0 <? _); [done|by rewrite app_nil_r].
  - destruct (TaskList _ _ _); [by rewrite listTasks_loop_spec|by rewrite app_nil_r].
Qed.

Lemma listServices_loop_spec dockerClient serviceList networkMap acc err w :
  (listServices_loop dockerClient serviceList networkMap acc err w).1.1
  = acc ++ swarmRecords dockerClient networkMap (tick w) serviceList
  ∧ tick (listServices_loop dockerClient serviceList networkMap acc err w).2
    = (tick w + length (List.filter (byTasks networkMap) serviceList))%nat
  ∧ trace (listServices_loop dockerClient serviceList networkMap acc err w).2
    = rev (map taskCall (List.filter (byTasks networkMap) serviceList)) ++ trace w.
Proof.
  revert acc err w. induction serviceList as [|service rest IH]; intros acc err w.
  - cbn. by rewrite app_nil_r, Nat.add_0_r.
  - rewrite listServices_loop_step. cbn [swarmRecords List.filter].
    destruct (byTasks networkMap service).
    + destruct (IH (acc ++ serviceRecords dockerClient networkMap (tick w) service)
                  (taskListError dockerClient (tick w) service)
                  (called (taskCall service) w)) as (Hrec & Htick & Htrace).
      rewrite Hrec, Htick, Htrace. cbn [tick trace called length map rev].
      split; [by rewrite <- app_assoc|split; [lia|by rewrite <- app_assoc]].
    + destruct (IH (acc ++ serviceRecords dockerClient networkMap (tick w) service) err w)
        as (Hrec & Htick & Htrace).
      rewrite Hrec, Htick, Htrace. by rewrite <- app_assoc.
Qed.

Lemma listServices_loop_unlisted dockerClient serviceList networkMap acc err w :
  Forall (λ service, byTasks networkMap service = false) serviceList →
  (listServices_loop dockerClient serviceList networkMap acc err w).1.2 = err.
Proof.
  revert acc. induction serviceList as [|service rest IH]; intros acc Hall; [done|].
  apply Forall_cons in Hall as [Hs Hrest].
  rewrite listServices_loop_step, Hs. by apply IH.
Qed.

(** X7. The loop of [listServices] lists the tasks of exactly the services
    that are not on the [isBackendLBSwarm] branch, once each and in the order
    of the service list, and makes no other call; its records are, in that
    order, what each service adds: its own record or the records of its
    tasks, and nothing for a service whose task list fails. *)
Theorem listServices_loop_records (dockerClient : Client) (serviceList : list Service)
    (networkMap : gmap string NetworkResource) (acc : list dockerData)
    (err : option error) (w : World) :
  let r := listServices_loop dockerClient serviceList networkMap acc err w in
  r.1.1 = acc ++ swarmRecords dockerClient networkMap (tick w) serviceList
  ∧ trace r.2
    = rev (map taskCall (List.filter (byTasks networkMap) serviceList)) ++ trace w
  ∧ ∀ before service after,
      serviceList = before ++ service :: after →
      ∃ recordsBefore recordsAfter,
        r.1.1 = acc ++ recordsBefore
                ++ serviceRecords dockerClient networkMap
                     (tick w + length (List.filter (byTasks networkMap) before))%nat
                     service
                ++ recordsAfter.
Proof.
  cbv zeta.
  destruct (listServices_loop_spec dockerClient serviceList networkMap acc err w)
    as (Hrec & _ & Htrace).
  split; [done|split; [done|]].
  intros before service after ->. clear Hrec Htrace.
  rewrite listServices_loop_app. cbv zeta.
  destruct (listServices_loop_spec dockerClient before networkMap acc err w)
    as (Hrec & Htick & _).
  set (r := listServices_loop dockerClient before networkMap acc err w) in *.
  rewrite listServices_loop_step.
  exists (swarmRecords dockerClient networkMap (tick w) before).
  destruct (byTasks networkMap service).
  - eexists.
    rewrite (proj1 (listServices_loop_spec dockerClient after networkMap _ _ _)).
    rewrite Hrec, Htick, <- !app_assoc. reflexivity.
  - eexists.
    rewrite (proj1 (listServices_loop_spec dockerClient after networkMap _ _ _)).
    rewrite Hrec, Htick, <- !app_assoc. reflexivity.
Qed.

(** X8. The error the loop of [listServices] returns is that of the last
    task list it fetched: nil when that call succeeded, whatever failed
    before it, and the error of that call otherwise; when no service is
    resolved through its tasks the error is the one the loop started with. *)
Theorem listServices_loop_error (dockerClient : Client) (serviceList : list Service)
    (networkMap : gmap string NetworkResource) (acc : list dockerData)
    (err : option error) (w : World) :
  (Forall (λ service, byTasks networkMap service = false) serviceList →
   (listServices_loop dockerClient serviceList networkMap acc err w).1.2 = err)
  ∧ ∀ before service after,
      serviceList = before ++ service :: after →
      byTasks networkMap service = true →
      Forall (λ service', byTasks networkMap service' = false) after →
      (listServices_loop dockerClient serviceList networkMap acc err w).1.2
      = taskListError dockerClient
          (tick w + length (List.filter (byTasks networkMap) before))%nat service.
Proof.
  split; [apply listServices_loop_unlisted|].
  intros before service after -> Hs Hafter.
  rewrite listServices_loop_app. cbv zeta.
  destruct (listServices_loop_spec dockerClient before networkMap acc err w)
    as (_ & Htick & _).
  rewrite listServices_loop_step, Hs, listServices_loop_unlisted by done.
  by rewrite Htick.
Qed.

Lemma parseService_identity service networkMap :
  ServiceName (parseService service networkMap)
  = ann_Name (spec_Annotations (svc_Spec service))
  ∧ Name (parseService service networkMap)
    = ann_Name (spec_Annotations (svc_Spec service))
  ∧ Labels (parseService service networkMap)
    = ann_Labels (spec_Annotations (svc_Spec service)).
Proof.
  unfold parseService. destruct (spec_EndpointSpec _); [|done].
  destruct (String.eqb _ ResolutionModeDNSRR); [done|].
  by destruct (String.eqb _ ResolutionModeVIP).
Qed.

(** X9. [listServices] returns a record, or a nil error, only when the
    service list, the server version and the network list were all fetched;
    its records are then those of the loop over the listed services with the
    map of the listed networks, and every record belongs to a listed service
    whose name it carries as [ServiceName] and whose labels it carries. *)
Theorem listServices_records (dockerClient : Client) (w : World) :
  let r := listServices dockerClient w in
  (r.1.1 ≠ [] ∨ r.1.2 = None →
   ∃ serviceList serverVersion networkList,
     ServiceList dockerClient (tick w) = Ok serviceList
     ∧ ServerVersion dockerClient (S (tick w)) = Ok serverVersion
     ∧ NetworkList dockerClient (S (S (tick w)))
         (networkListArgs (ver_APIVersion serverVersion)) = Ok networkList
     ∧ r.1.1 = swarmRecords dockerClient (mkNetworkMap networkList)
                 (S (S (S (tick w)))) serviceList)
  ∧ ∀ d, d ∈ r.1.1 →
         ∃ serviceList service,
           ServiceList dockerClient (tick w) = Ok serviceList
           ∧ service ∈ serviceList
           ∧ ServiceName d = ann_Name (spec_Annotations (svc_Spec service))
           ∧ Labels d = ann_Labels (spec_Annotations (svc_Spec service)).
Proof.
  cbv zeta. rewrite listServices_run.
  destruct (ServiceList _ _) as [serviceList|e] eqn:Hservices.
  2:{ cbn. split; [by intros [?|?]|by intros d ?%elem_of_nil]. }
  cbv zeta. cbn [tick called].
  destruct (ServerVersion _ _) as [serverVersion|e] eqn:Hversion.
  2:{ cbn. split; [by intros [?|?]|by intros d ?%elem_of_nil]. }
  destruct (NetworkList _ _ _) as [networkList|e] eqn:Hnetworks.
  2:{ cbn. split; [by intros [?|?]|by intros d ?%elem_of_nil]. }
  split.
  - intros _. exists serviceList, serverVersion, networkList.
    split; [done|split; [done|split; [done|]]].
    by rewrite (proj1 (listServices_loop_spec dockerClient serviceList _ _ _ _)).
  - intros d [?%elem_of_nil|(service & Hin & H)]%listServices_loop_elem; [done|].
    exists serviceList, service. split; [done|split; [done|]].
    destruct (parseService_identity service (mkNetworkMap networkList))
      as (Hsn & Hn & Hl).
    destruct H as [(_ & -> & _)|(_ & t & taskList & task & _ & _ & _ & -> & _)]; [done|].
    cbn [parseTasks ServiceName Labels]. done.
Qed.

(** ** A daemon that does not change *)





(** ** The endpoints of a container record *)

(** X20. A container record keeps the networks of the container as they
    are: it has an endpoint under a name exactly when the container is
    attached to a network under that name, with the ID and the IP address of
    that attachment, empty or not; a container without network settings has
    no endpoint. The service name of the record is its own name. *)
Theorem parseContainer_endpoint (container : ContainerJSON) (name : string) :
  let attachments := from_option cns_Networks ∅ (cj_NetworkSettings container) in
  Networks (NetworkSettings (parseContainer container)) !! name
  = (λ containerNetwork,
       {| nd_Name := name; nd_Addr := es_IPAddress containerNetwork; nd_Port := 0;
          nd_Protocol := ""; nd_ID := es_NetworkID containerNetwork |})
      <$> attachments !! name
  ∧ (Networks (NetworkSettings (parseContainer container)) = ∅ ↔ attachments = ∅)
  ∧ ServiceName (parseContainer container) = Name (parseContainer container).
Proof.
  cbv zeta.
  assert (∀ name,
            Networks (NetworkSettings (parseContainer container)) !! name
            = (λ containerNetwork,
                 {| nd_Name := name; nd_Addr := es_IPAddress containerNetwork;
                    nd_Port := 0; nd_Protocol := "";
                    nd_ID := es_NetworkID containerNetwork |})
                <$> from_option cns_Networks ∅ (cj_NetworkSettings container) !! name)
    as Hlookup.
  { intros name'. cbn [parseContainer NetworkSettings Networks].
    destruct (cj_NetworkSettings container) as [settings|]; cbn [from_option].
    - rewrite map_lookup_imap. by destruct (cns_Networks settings !! name').
    - by rewrite lookup_empty. }
  split; [apply Hlookup|split; [|done]].
  rewrite !map_empty. split; intros H i; specialize (H i).
  - rewrite Hlookup in H. by destruct (_ !! i).
  - by rewrite Hlookup, H.
Qed.

(** * Further properties of the watch handlers *)

(** ** Publishing after a pass over the swarm *)

(** X11. [listAndUpdateServices] returns the error of [listServices]. It
    sends one message when that error is nil and [buildConfiguration] gives
    a configuration, and nothing otherwise: records that come back together
    with an error are dropped. It makes no call of its own. *)
Theorem listAndUpdateServices_effect (dockerClient : Client) (w : World) :
  let r := listServices dockerClient w in
  let u := listAndUpdateServices dockerClient w in
  u.1 = r.1.2
  ∧ chan u.2 = chan w ++ match r.1.2, buildConfiguration r.1.1 with
                         | None, Some configuration => [dockerMessage configuration]
                         | _, _ => []
                         end
  ∧ trace u.2 = trace r.2
  ∧ slept u.2 = slept w
  ∧ cancelled u.2 = cancelled w.
Proof.
  cbv zeta. rewrite listAndUpdateServices_run. cbv zeta.
  pose proof (listServices_chan dockerClient w) as Hchan.
  assert (slept (listServices dockerClient w).2 = slept w
          ∧ cancelled (listServices dockerClient w).2 = cancelled w) as [Hslept Hcancel].
  { rewrite listServices_run.
    destruct (ServiceList _ _) as [serviceList|]; [|done]. cbv zeta.
    destruct (ServerVersion _ _) as [serverVersion|]; [|done].
    destruct (NetworkList _ _ _) as [networkList|]; [|done].
    by destruct (listServices_loop_extends dockerClient serviceList
                   (mkNetworkMap networkList) [] None
                   (called (CallNetworkList (networkListArgs (ver_APIVersion serverVersion)))
                      (called CallServerVersion (called CallServiceList w))))
      as (_ & _ & _ & _ & _ & S & C). }
  destruct (listServices dockerClient w) as [[l [e|]] w']; cbn in *.
  - by rewrite Hchan, app_nil_r.
  - destruct (buildConfiguration l); cbn; by rewrite Hchan, ?app_nil_r.
Qed.

(** ** The standalone handler and its loop *)

(** X12. The pass over the containers fails exactly when the listing itself
    fails: a failed inspection only drops its container. [startStopHandle]
    cancels the watch context in that case, and only then, and sends
    nothing. *)
Theorem startStopHandle_cancels (dockerClient : Client) (m : Message) (w : World) :
  ((listContainers dockerClient w).1.2
   = match ContainerList dockerClient (tick w) with
     | Ok _ => None
     | Err err => Some err
     end)
  ∧ cancelled (startStopHandle dockerClient m w).2
    = match ContainerList dockerClient (tick w) with
      | Ok _ => cancelled w
      | Err _ => true
      end
  ∧ (∀ err, ContainerList dockerClient (tick w) = Err err →
            chan (startStopHandle dockerClient m w).2 = chan w).
Proof.
  assert ((listContainers dockerClient w).1.2
          = match ContainerList dockerClient (tick w) with
            | Ok _ => None
            | Err err => Some err
            end) as Herr.
  { rewrite listContainers_run. by destruct (ContainerList _ _). }
  split; [done|split].
  - rewrite startStopHandle_run. cbv zeta. rewrite Herr.
    destruct (listContainers_extends dockerClient w) as (_ & _ & _ & _ & _ & _ & C).
    destruct (ContainerList _ _); [|done].
    by destruct (buildConfiguration _).
  - intros err Hlist.
    rewrite (proj2 (startStopHandle_trace dockerClient m w)), Herr, Hlist.
    by rewrite app_nil_r.
Qed.

(** X13. The standalone watch loop returns the first error the stream
    delivers, whatever the error, after handling the events received before
    it; no item that follows the error is handled, and without an error the
    loop has not returned. *)
Theorem watchLoop_first_error (dockerClient : Client) (items : list StreamItem) (w : World) :
  (watchLoop dockerClient items w).1 = firstError items
  ∧ (watchLoop dockerClient items w).2
    = (watchLoop dockerClient (map EventItem (received items)) w).2.
Proof.
  revert w. induction items as [|[event|err] rest IH]; intros w; [done| |done].
  cbn [watchLoop firstError received map]. unfold mbind, M_bind.
  destruct (watchEvent dockerClient event w) as [[] w']. apply IH.
Qed.

(** A message of the watch path: from the provider "docker", with a
    configuration. *)
Definition watchMessage (msg : ConfigMessage Configuration) : Prop :=
  ProviderName msg = "docker"%string ∧ is_Some (Configuration_ msg).

Lemma watchEvent_chan dockerClient event w :
  ∃ msgs,
    chan (watchEvent dockerClient event w).2 = chan w ++ msgs
    ∧ Forall watchMessage msgs
    ∧ (length msgs ≤ if isWatchedAction (msg_Action event) then 1 else 0)%nat.
Proof.
  unfold watchEvent. destruct (isWatchedAction _).
  - rewrite (proj2 (startStopHandle_trace dockerClient event w)).
    destruct (listContainers dockerClient w).1.2.
    + exists []. split; [done|split; [done|cbn; lia]].
    + destruct (buildConfiguration _) as [configuration|].
      * exists [dockerMessage configuration]. split; [done|split; [|done]].
        repeat constructor. cbn. eauto.
      * exists []. split; [done|split; [done|cbn; lia]].
  - exists []. cbn. by rewrite app_nil_r.
Qed.

Lemma watchLoop_spec dockerClient items w :
  (watchLoop dockerClient items w).1 = firstError items
  ∧ ∃ msgs,
      chan (watchLoop dockerClient items w).2 = chan w ++ msgs
      ∧ Forall watchMessage msgs
      ∧ (length msgs
         ≤ length (List.filter (λ event, isWatchedAction (msg_Action event))
                     (received items)))%nat.
Proof.
  revert w. induction items as [|[event|err] rest IH]; intros w.
  - split; [done|]. exists []. cbn. by rewrite app_nil_r.
  - cbn [watchLoop firstError received List.filter]. unfold mbind, M_bind.
    destruct (watchEvent_chan dockerClient event w) as (msgs1 & Hc1 & Hf1 & Hl1).
    destruct (watchEvent dockerClient event w) as [[] w']. cbn [snd] in Hc1.
    destruct (IH w') as (Hres & msgs2 & Hc2 & Hf2 & Hl2).
    split; [done|].
    exists (msgs1 ++ msgs2). rewrite Hc2, Hc1, <- app_assoc, Forall_app, length_app.
    repeat split; try done.
    destruct (isWatchedAction _); cbn [length]; lia.
  - split; [done|]. exists []. cbn. by rewrite app_nil_r.
Qed.

(** X14. The standalone watch loop only ever adds to the channel: the
    messages sent before stay, in order, and at most one message is added per
    event received with a watched action; every message added is from the
    provider "docker" and carries a configuration, never nil. *)
Theorem watchLoop_channel (dockerClient : Client) (items : list StreamItem) (w : World) :
  ∃ msgs,
    chan (watchLoop dockerClient items w).2 = chan w ++ msgs
    ∧ Forall watchMessage msgs
    ∧ (length msgs
       ≤ length (List.filter (λ event, isWatchedAction (msg_Action event))
                   (received items)))%nat.
Proof.
  destruct (watchLoop_spec dockerClient items w) as (_ & msgs & Hchan & Hall & Hlen).
  exists msgs. by repeat split.
Qed.

(** ** The readiness gate of the swarm callback *)

Definition transitionalStates : list string :=
  [TaskStateNew; TaskStatePending; TaskStateAssigned; TaskStateAccepted;
   TaskStatePreparing; TaskStateStarting].

(** The tasks are not ready: there is none, or one is in a transitional state. *)
Definition waits (taskList : list Task) : Prop :=
  taskList = [] ∨ ∃ task, task ∈ taskList ∧ task_Status_State task ∈ transitionalStates.

Lemma isTransitional_spec state :
  isTransitional state = true ↔ state ∈ transitionalStates.
Proof.
  unfold isTransitional, transitionalStates. rewrite existsb_exists. split.
  - intros (s & Hin & ->%String.eqb_eq). by apply list_elem_of_In.
  - intros Hin. exists state. split; [by apply list_elem_of_In|apply String.eqb_refl].
Qed.

Lemma TaskLoop_spec taskList retry :
  TaskLoop taskList retry = true
  ↔ retry = true ∨ ∃ task, task ∈ taskList ∧ task_Status_State task ∈ transitionalStates.
Proof.
  induction taskList as [|task rest IH]; cbn [TaskLoop].
  - split; [by left|]. by intros [|(task & ?%elem_of_nil & _)].
  - destruct (String.eqb_spec (task_Status_State task) TaskStateRunning) as [Hrun|Hrun];
      cbn [negb andb].
    + rewrite IH. split; (intros [|(task' & Hin & Hs)]; [by left|right]).
      * exists task'. split; [by right|done].
      * apply elem_of_cons in Hin as [->|Hin]; [|by exists task'].
        rewrite Hrun in Hs. apply isTransitional_spec in Hs. discriminate Hs.
    + destruct (isTransitional (task_Status_State task)) eqn:Ht.
      * split; [|done]. intros _. right. exists task.
        split; [by left|by apply isTransitional_spec].
      * rewrite IH. split; (intros [|(task' & Hin & Hs)]; [by left|right]).
        -- exists task'. split; [by right|done].
        -- apply elem_of_cons in Hin as [->|Hin]; [|by exists task'].
           apply isTransitional_spec in Hs. congruence.
Qed.

Lemma TaskLoop_waits taskList :
  TaskLoop taskList (bool_decide (length taskList = 0%nat)) = true ↔ waits taskList.
Proof.
  rewrite TaskLoop_spec, bool_decide_eq_true. unfold waits.
  by rewrite length_zero_iff_nil.
Qed.

Lemma callbackFunc_step fuel dockerClient msg w taskList :
  msg_Actor_ID msg ≠ EmptyString →
  TaskList dockerClient (tick w) (serviceIDFilter (msg_Actor_ID msg)) = Ok taskList →
  callbackFunc (S fuel) dockerClient msg w
  = let w1 := called (CallTaskList (serviceIDFilter (msg_Actor_ID msg))) w in
    if TaskLoop taskList (bool_decide (length taskList = 0%nat))
    then callbackFunc fuel dockerClient msg (asleep 1 w1)
    else (Some tt, (listAndUpdateServices dockerClient w1).2).
Proof.
  intros Hid Htasks. cbn [callbackFunc].
  destruct (String.eqb_spec (msg_Actor_ID msg) "") as [|_]; [done|].
  cbn [negb]. unfold mbind, M_bind, call.
  change (NewArgs _) with (serviceIDFilter (msg_Actor_ID msg)).
  rewrite Htasks. cbv zeta.
  destruct (TaskLoop _ _); cbn [negb]; [done|].
  unfold listAndUpdateServicesHelper, mbind, M_bind, mret, M_ret.
  by destruct (listAndUpdateServices _ _).
Qed.

(** X15. The readiness gate of the swarm callback. An event without actor ID
    enumerates the swarm at once, without looking at any task. For an event
    with an actor ID whose running-desired tasks are fetched: when there is
    no task, or a task is new, pending, assigned, accepted, preparing or
    starting, the callback sleeps one second and starts over; otherwise,
    whatever the states of the tasks, it enumerates the swarm and returns. *)
Theorem callbackFunc_readiness (fuel : nat) (dockerClient : Client) (msg : Message)
    (w : World) :
  (msg_Actor_ID msg = EmptyString →
   callbackFunc (S fuel) dockerClient msg w
   = (Some tt, (listAndUpdateServices dockerClient w).2))
  ∧ ∀ taskList,
      msg_Actor_ID msg ≠ EmptyString →
      TaskList dockerClient (tick w) (serviceIDFilter (msg_Actor_ID msg)) = Ok taskList →
      let w1 := called (CallTaskList (serviceIDFilter (msg_Actor_ID msg))) w in
      (waits taskList →
       callbackFunc (S fuel) dockerClient msg w
       = callbackFunc fuel dockerClient msg (asleep 1 w1))
      ∧ (¬ waits taskList →
         callbackFunc (S fuel) dockerClient msg w
         = (Some tt, (listAndUpdateServices dockerClient w1).2)).
Proof.
  split.
  - intros Hid. cbn [callbackFunc]. rewrite Hid. cbn.
    unfold listAndUpdateServicesHelper, mbind, M_bind, mret, M_ret.
    by destruct (listAndUpdateServices _ _).
  - intros taskList Hid Htasks. cbv zeta.
    rewrite (callbackFunc_step fuel dockerClient msg w taskList Hid Htasks). cbv zeta.
    split; intros Hw.
    + apply TaskLoop_waits in Hw. by rewrite Hw.
    + destruct (TaskLoop _ _) eqn:Hloop; [|done].
      by apply TaskLoop_waits in Hloop.
Qed.

(** The world after [n] rounds of fetching the task list and sleeping. *)
Fixpoint waited (f : Filters) (n : nat) (w : World) : World :=
  match n with
  | O => w
  | S n' => waited f n' (asleep 1 (called (CallTaskList f) w))
  end.

Lemma waited_world f n w :
  tick (waited f n w) = (tick w + n)%nat
  ∧ slept (waited f n w) = (slept w + n)%nat
  ∧ chan (waited f n w) = chan w
  ∧ cancelled (waited f n w) = cancelled w
  ∧ trace (waited f n w) = repeat (CallTaskList f) n ++ trace w.
Proof.
  revert w. induction n as [|n IH]; intros w.
  - cbn. by rewrite !Nat.add_0_r.
  - cbn [waited]. destruct (IH (asleep 1 (called (CallTaskList f) w)))
      as (-> & -> & -> & -> & ->).
    cbn [tick slept chan cancelled trace asleep called].
    repeat split; try lia; try done.
    change (CallTaskList f :: trace w) with ([CallTaskList f] ++ trace w).
    rewrite app_assoc. f_equal. by rewrite <- repeat_cons.
Qed.

Lemma callbackFunc_polls n fuel dockerClient msg w :
  msg_Actor_ID msg ≠ EmptyString →
  (∀ i, (i < n)%nat →
        ∃ taskList,
          TaskList dockerClient (tick w + i)%nat (serviceIDFilter (msg_Actor_ID msg))
          = Ok taskList
          ∧ waits taskList) →
  callbackFunc (n + fuel) dockerClient msg w
  = callbackFunc fuel dockerClient msg (waited (serviceIDFilter (msg_Actor_ID msg)) n w).
Proof.
  intros Hid. revert w. induction n as [|n IH]; intros w Hwait; [done|].
  destruct (Hwait 0%nat) as (taskList & Htasks & Hw); [lia|].
  rewrite Nat.add_0_r in Htasks.
  cbn [Nat.add waited].
  rewrite (callbackFunc_step _ dockerClient msg w taskList Hid Htasks). cbv zeta.
  apply TaskLoop_waits in Hw. rewrite Hw. apply IH.
  intros i Hi. cbn [tick asleep called].
  destruct (Hwait (S i)) as (taskList' & Htasks' & Hw'); [lia|].
  exists taskList'. split; [|done].
  by replace (S (tick w) + i)%nat with (tick w + S i)%nat by lia.
Qed.

(** X16. The callback has no retry limit. As long as every fetch of the task
    list of the service finds the tasks not ready, the callback keeps
    fetching and sleeping one second per round and never returns; meanwhile
    it sends nothing and never enumerates the swarm. *)
Theorem callbackFunc_never_ready (fuel : nat) (dockerClient : Client) (msg : Message)
    (w : World) :
  msg_Actor_ID msg ≠ EmptyString →
  (∀ t, ∃ taskList,
      TaskList dockerClient t (serviceIDFilter (msg_Actor_ID msg)) = Ok taskList
      ∧ waits taskList) →
  let r := callbackFunc fuel dockerClient msg w in
  r.1 = None
  ∧ slept r.2 = (slept w + fuel)%nat
  ∧ chan r.2 = chan w
  ∧ trace r.2 = repeat (CallTaskList (serviceIDFilter (msg_Actor_ID msg))) fuel ++ trace w.
Proof.
  intros Hid Hwait. cbv zeta.
  assert (callbackFunc fuel dockerClient msg w
          = (None, waited (serviceIDFilter (msg_Actor_ID msg)) fuel w)) as ->.
  { rewrite <- (Nat.add_0_r fuel) at 1.
    by rewrite (callbackFunc_polls fuel 0 dockerClient msg w Hid)
      by (intros i _; apply Hwait). }
  cbn [fst snd].
  by destruct (waited_world (serviceIDFilter (msg_Actor_ID msg)) fuel w)
    as (_ & -> & -> & _ & ->).
Qed.

(** X17. The callback converges with the service. When the first [n]
    fetches of the task list find the tasks not ready and the next one finds
    them ready, the callback has slept exactly [n] seconds and fetched the
    task list [n + 1] times when it enumerates the swarm once and returns;
    when instead that next fetch fails, it returns without enumerating. *)
Theorem callbackFunc_converges (n fuel : nat) (dockerClient : Client) (msg : Message)
    (w : World) :
  msg_Actor_ID msg ≠ EmptyString →
  (∀ i, (i < n)%nat →
        ∃ taskList,
          TaskList dockerClient (tick w + i)%nat (serviceIDFilter (msg_Actor_ID msg))
          = Ok taskList
          ∧ waits taskList) →
  let f := serviceIDFilter (msg_Actor_ID msg) in
  let w1 := called (CallTaskList f) (waited f n w) in
  slept w1 = (slept w + n)%nat
  ∧ chan w1 = chan w
  ∧ trace w1 = repeat (CallTaskList f) (S n) ++ trace w
  ∧ (∀ taskList,
       TaskList dockerClient (tick w + n)%nat f = Ok taskList →
       ¬ waits taskList →
       callbackFunc (n + S fuel) dockerClient msg w
       = (Some tt, (listAndUpdateServices dockerClient w1).2))
  ∧ (∀ e,
       TaskList dockerClient (tick w + n)%nat f = Err e →
       callbackFunc (n + S fuel) dockerClient msg w = (Some tt, w1)).
Proof.
  intros Hid Hwait. cbv zeta.
  destruct (waited_world (serviceIDFilter (msg_Actor_ID msg)) n w)
    as (Htick & Hslept & Hchan & _ & Htrace).
  cbn [slept chan trace called]. rewrite Hslept, Hchan, Htrace.
  split; [done|split; [done|split; [done|split]]].
  - intros taskList Htasks Hready.
    rewrite (callbackFunc_polls n (S fuel) dockerClient msg w Hid Hwait).
    rewrite <- Htick in Htasks.
    rewrite (callbackFunc_step fuel dockerClient msg _ taskList Hid Htasks). cbv zeta.
    destruct (TaskLoop _ _) eqn:Hloop; [|done].
    by apply TaskLoop_waits in Hloop.
  - intros e Htasks.
    rewrite (callbackFunc_polls n (S fuel) dockerClient msg w Hid Hwait).
    rewrite <- Htick in Htasks. cbn [callbackFunc].
    destruct (String.eqb_spec (msg_Actor_ID msg) "") as [|_]; [done|].
    cbn [negb]. unfold mbind, M_bind, call.
    change (NewArgs _) with (serviceIDFilter (msg_Actor_ID msg)).
    by rewrite Htasks.
Qed.

(** ** The first pass and the standalone run *)

Lemma operation_start_chan swarmMode dockerClient w :
  chan (operation_start swarmMode dockerClient w).2
  = chan w
    ++ match (operation_start swarmMode dockerClient w).1 with
       | None =>
           [{| ProviderName := "docker";
               Configuration_ :=
                 buildConfiguration
                   ((if swarmMode then listServices dockerClient
                     else listContainers dockerClient) (called CallServerVersion w)).1.1 |}]
       | Some _ => []
       end.
Proof.
  rewrite operation_start_run.
  destruct (ServerVersion _ _) as [serverVersion|err]; [|by cbn; rewrite app_nil_r].
  cbv zeta.
  assert (chan ((if swarmMode then listServices dockerClient
                 else listContainers dockerClient) (called CallServerVersion w)).2
          = chan w) as Hchan.
  { destruct swarmMode; [by rewrite listServices_chan|by rewrite listContainers_chan]. }
  destruct ((if swarmMode then listServices dockerClient
             else listContainers dockerClient) (called CallServerVersion w))
    as [[l [e|]] w']; cbn in *.
  - by rewrite Hchan, app_nil_r.
  - by rewrite Hchan.
Qed.

(** X18. The first pass of [operation] returns the error of the version
    handshake, or else that of the enumeration in the mode of the provider;
    it sends exactly one message when it returns nil and none otherwise, and
    that message carries whatever [buildConfiguration] returned for the
    records, nil included. When the handshake fails nothing is enumerated. *)
Theorem operation_start_outcome (swarmMode : bool) (dockerClient : Client) (w : World) :
  let pass := (if swarmMode then listServices dockerClient
               else listContainers dockerClient) (called CallServerVersion w) in
  let r := operation_start swarmMode dockerClient w in
  r.1 = match ServerVersion dockerClient (tick w) with
        | Ok _ => pass.1.2
        | Err err => Some err
        end
  ∧ chan r.2 = chan w ++ match r.1 with
                         | None => [{| ProviderName := "docker";
                                       Configuration_ := buildConfiguration pass.1.1 |}]
                         | Some _ => []
                         end
  ∧ (∀ err, ServerVersion dockerClient (tick w) = Err err →
            trace r.2 = CallServerVersion :: trace w).
Proof.
  cbv zeta. split; [|split; [apply operation_start_chan|]].
  - rewrite operation_start_run.
    destruct (ServerVersion _ _) as [serverVersion|err]; [|done]. cbv zeta.
    by destruct ((if swarmMode then listServices dockerClient
                  else listContainers dockerClient) (called CallServerVersion w))
      as [[l [e|]] w'].
  - intros err Hv. by rewrite operation_start_run, Hv.
Qed.

(** X19. A run of [operation] outside swarm mode. When the first pass fails
    the watch never starts and nothing is sent. When it succeeds the channel
    receives the first snapshot and then, with the watch on, at most one
    message per watched event, each with a configuration; the run returns
    the first error of the event stream, and nil at once with the watch
    off. *)
Theorem operation_standalone_run (watch : bool) (dockerClient : Client)
    (items : list StreamItem) (w : World) :
  let s := operation_start false dockerClient w in
  let r := operation_standalone watch dockerClient items w in
  (∀ err, s.1 = Some err → r = (Some err, s.2) ∧ chan r.2 = chan w)
  ∧ (s.1 = None →
     r.1 = (if watch then firstError items else None)
     ∧ ∃ msgs,
         chan r.2
         = chan w
           ++ [{| ProviderName := "docker";
                  Configuration_ :=
                    buildConfiguration
                      (listContainers dockerClient (called CallServerVersion w)).1.1 |}]
           ++ msgs
         ∧ Forall watchMessage msgs
         ∧ (length msgs
            ≤ if watch
              then length (List.filter (λ event, isWatchedAction (msg_Action event))
                             (received items))
              else 0)%nat).
Proof.
  cbv zeta. unfold operation_standalone, mbind, M_bind.
  pose proof (operation_start_chan false dockerClient w) as Hchan.
  destruct (operation_start false dockerClient w) as [[err|] w'] eqn:Hs; cbn [fst snd] in *.
  - split; [|done]. intros err' [= <-]. split; [done|].
    cbn. by rewrite Hchan, app_nil_r.
  - split; [done|]. intros _. destruct watch.
    + destruct (watchLoop_spec dockerClient items w') as (Hres & msgs & Hc & Hf & Hl).
      split; [done|]. exists msgs. by rewrite Hc, Hchan, <- app_assoc.
    + split; [done|]. exists []. cbn. by rewrite Hchan.
Qed.

End Provider.

(** * The properties on the sample daemons *)

(** ** The swarm callback when the task list fails *)

Lemma callbackFunc_task_list_failure_witness :
  msg_Actor_ID (updateEvent "B") ≠ EmptyString
  ∧ TaskList (swarmClient [svcBeta]) (tick sampleWorld) (serviceIDFilter "B")
    = Err "tasks unavailable"
  ∧ callbackFunc (list string) buildNames lbSwarmLabel sampleParseCIDR 3
      (swarmClient [svcBeta]) (updateEvent "B") sampleWorld
    = (Some tt, called (list string) (CallTaskList (serviceIDFilter "B")) sampleWorld).
Proof.
  assert (msg_Actor_ID (updateEvent "B") ≠ EmptyString) as H1
    by (vm_compute; discriminate).
  assert (TaskList (swarmClient [svcBeta]) (tick sampleWorld) (serviceIDFilter "B")
          = Err "tasks unavailable") as H2 by reflexivity.
  split; [exact H1|split; [exact H2|]].
  exact (callbackFunc_task_list_failure (list string) buildNames lbSwarmLabel
           sampleParseCIDR 2 (swarmClient [svcBeta]) (updateEvent "B") sampleWorld
           "tasks unavailable" H1 H2).
Defined.

(** The task list of service [B] fails: the callback returns after that one
    call, without listing the services and without sending anything. *)
Lemma callbackFunc_task_list_failure_counterexample :
  let r := callbackFunc (list string) buildNames lbSwarmLabel sampleParseCIDR 3
             (swarmClient [svcBeta]) (updateEvent "B") sampleWorld in
  (TaskList (swarmClient [svcBeta]) (tick sampleWorld) (serviceIDFilter "B")
   = Err "tasks unavailable"
   ∧ r.1 = Some tt
   ∧ trace r.2 = [CallTaskList (serviceIDFilter "B")]
   ∧ (CallServiceList ∉ trace r.2)
   ∧ chan r.2 = []).
Proof.
  cbv zeta. repeat split; try reflexivity.
  intros H. apply list_elem_of_In in H. vm_compute in H. destruct H as [H|[]].
  discriminate H.
Qed.

(** ** A pass over the swarm whose last task list fails *)

Lemma listServices_last_task_error_witness :
  let r := listServices_loop (list string) lbSwarmLabel sampleParseCIDR
             (swarmClient [svcAlpha; svcBeta]) [svcAlpha] sampleNetworks [] None
             sampleWorld in
  (lbSwarmLabel (parseService sampleParseCIDR svcBeta sampleNetworks) = false
   ∧ TaskList (swarmClient [svcAlpha; svcBeta]) (tick r.2) (serviceIDFilter (svc_ID svcBeta))
     = Err "tasks unavailable"
   ∧ (listServices_loop (list string) lbSwarmLabel sampleParseCIDR
        (swarmClient [svcAlpha; svcBeta]) ([svcAlpha] ++ [svcBeta]) sampleNetworks [] None
        sampleWorld).1
     = (r.1.1, Some "tasks unavailable")).
Proof.
  cbv zeta.
  assert (lbSwarmLabel (parseService sampleParseCIDR svcBeta sampleNetworks) = false)
    as H1 by reflexivity.
  split; [exact H1|]. split; [reflexivity|].
  apply (listServices_last_task_error (list string) lbSwarmLabel sampleParseCIDR
           (swarmClient [svcAlpha; svcBeta]) [svcAlpha] svcBeta sampleNetworks sampleWorld
           "tasks unavailable" H1).
  reflexivity.
Defined.

(** The whole pass on the services [A] and [B]: the record of the task of [A]
    comes back with the error of [B], and [listAndUpdateServices] then
    returns that error without sending the snapshot. *)
Example listServices_sample_error :
  let r := listServices (list string) lbSwarmLabel sampleParseCIDR
             (swarmClient [svcAlpha; svcBeta]) sampleWorld in
  let u := listAndUpdateServices (list string) buildNames lbSwarmLabel sampleParseCIDR
             (swarmClient [svcAlpha; svcBeta]) sampleWorld in
  (map Name r.1.1 = ["alpha.1"%string]
   ∧ r.1.2 = Some "tasks unavailable"%string
   ∧ u.1 = Some "tasks unavailable"%string
   ∧ chan u.2 = []).
Proof. cbv zeta. repeat split; reflexivity. Qed.

(** With the failing service first, the error is overwritten by the success
    of the next task list. *)
Example listServices_sample_error_overwritten :
  let r := listServices (list string) lbSwarmLabel sampleParseCIDR
             (swarmClient [svcBeta; svcAlpha]) sampleWorld in
  (map Name r.1.1 = ["alpha.1"%string] ∧ r.1.2 = None).
Proof. cbv zeta. split; reflexivity. Qed.

(** ** Records and running workloads *)


(** The stopped container and the one that cannot be inspected yield nothing. *)
Example listContainers_sample :
  map Name (listContainers (list string) standaloneClient sampleWorld).1.1
  = ["/web"%string; "/sidecar"%string].
Proof. reflexivity. Qed.

(** Of the tasks of service [A], one running and one preparing, only the
    running one yields a record. *)
Example listTasks_sample :
  map Name
    (listTasks (list string) sampleParseCIDR (swarmClient [svcAlpha]) "A"
       (parseService sampleParseCIDR svcAlpha sampleNetworks) sampleNetworks false
       sampleWorld).1.1
  = ["alpha.1"%string].
Proof. reflexivity. Qed.

(** ** Records and networks *)

(** Both running containers are emitted: [c4] with an empty network map, [c1]
    with an endpoint whose address is empty. *)
Lemma standalone_record_without_network_counterexample :
  let r := listContainers (list string) standaloneClient sampleWorld in
  (r.1.2 = None
   ∧ parseContainer sidecarJSON ∈ r.1.1
   ∧ Networks (NetworkSettings (parseContainer sidecarJSON)) = ∅
   ∧ parseContainer webJSON ∈ r.1.1
   ∧ nd_Addr <$> Networks (NetworkSettings (parseContainer webJSON)) !! "host"%string
     = Some EmptyString).
Proof.
  cbv zeta. split; [reflexivity|]. split; [|split; [reflexivity|split; [|reflexivity]]].
  - apply list_elem_of_In. vm_compute. right. left. reflexivity.
  - apply list_elem_of_In. vm_compute. left. reflexivity.
Qed.

Lemma cluster_records_have_networks_witness :
  let d := parseTasks sampleParseCIDR taskRunning
             (parseService sampleParseCIDR svcAlpha sampleNetworks) sampleNetworks false in
  (d ∈ (listServices (list string) lbSwarmLabel sampleParseCIDR
          (swarmClient [svcAlpha]) sampleWorld).1.1
   ∧ Networks (NetworkSettings d) ≠ ∅
   ∧ addressed (Networks (NetworkSettings d))).
Proof.
  cbv zeta.
  match goal with |- ?P ∧ _ => assert P as H end.
  { apply list_elem_of_In. vm_compute. left. reflexivity. }
  split; [exact H|].
  exact (proj1 (cluster_records_have_networks (list string) lbSwarmLabel sampleParseCIDR
                  (swarmClient [svcAlpha]) sampleWorld _) H).
Defined.

(** ** A DNSRR service with the load-balancer label *)

Lemma dnsrr_service_enumeration_witness :
  spec_EndpointSpec (svc_Spec svcGamma) = Some {| eps_Mode := "dnsrr" |}
  ∧ eps_Mode {| eps_Mode := "dnsrr" |} = ResolutionModeDNSRR
  ∧ lbSwarmLabel (parseService sampleParseCIDR svcGamma sampleNetworks) = true
  ∧ listServices_loop (list string) lbSwarmLabel sampleParseCIDR
      (swarmClient [svcGamma]) [svcGamma] sampleNetworks [] None sampleWorld
    = listServices_loop (list string) lbSwarmLabel sampleParseCIDR
        (swarmClient [svcGamma]) [] sampleNetworks [] None sampleWorld.
Proof.
  assert (spec_EndpointSpec (svc_Spec svcGamma) = Some {| eps_Mode := "dnsrr" |}) as H1
    by reflexivity.
  assert (eps_Mode {| eps_Mode := "dnsrr" |} = ResolutionModeDNSRR) as H2 by reflexivity.
  assert (lbSwarmLabel (parseService sampleParseCIDR svcGamma sampleNetworks) = true) as H3
    by reflexivity.
  split; [exact H1|split; [exact H2|split; [exact H3|]]].
  exact (proj1 (proj2 (dnsrr_service_enumeration (list string) lbSwarmLabel sampleParseCIDR
                         (swarmClient [svcGamma]) svcGamma [] sampleNetworks [] None
                         sampleWorld _ H1 H2)) H3).
Defined.

(** The whole pass: the labelled DNSRR service [G] has a running task with a
    resolved network, and yet the pass lists no task and returns no record;
    without the label the task is listed and yields its record. *)
Example listServices_sample_dnsrr :
  let r := listServices (list string) lbSwarmLabel sampleParseCIDR
             (swarmClient [svcGamma]) sampleWorld in
  let r' := listServices (list string) lbSwarmLabel sampleParseCIDR
              (swarmClient [svcGamma']) sampleWorld in
  (r.1 = ([], None)
   ∧ trace r.2 = [CallNetworkList [("scope", "swarm")]; CallServerVersion; CallServiceList]
   ∧ map Name r'.1.1 = ["gamma.1"%string]
   ∧ trace r'.2 = [CallTaskList (serviceIDFilter "G"); CallNetworkList [("scope", "swarm")];
                   CallServerVersion; CallServiceList]).
Proof. cbv zeta. repeat split; reflexivity. Qed.

(** ** Instance names *)


(** A replicated service names its task by the slot, a global service by the
    task ID. *)
Example parseTasks_sample_names :
  map Name (listServices (list string) lbSwarmLabel sampleParseCIDR
              (swarmClient [svcAlpha; svcEpsilon]) sampleWorld).1.1
  = ["alpha.1"%string; "epsilon.t1"%string; "epsilon.t3"%string].
Proof. reflexivity. Qed.

Example Itoa_samples : (Itoa 0, Itoa 7, Itoa 12, Itoa (-3)) = ("0", "7", "12", "-3")%string.
Proof. reflexivity. Qed.

(** ** The filter of the network list *)

Lemma networkListArgs_threshold_witness :
  ServiceList (swarmClient [svcAlpha]) (tick sampleWorld) = Ok [svcAlpha]
  ∧ ServerVersion (swarmClient [svcAlpha]) (S (tick sampleWorld))
    = Ok {| ver_Version := "17.06.0-ce"; ver_APIVersion := "1.30" |}
  ∧ extends (list string) isTaskListCall
      (called (list string) (CallNetworkList (networkListArgs "1.30"))
         (called (list string) CallServerVersion
            (called (list string) CallServiceList sampleWorld)))
      (listServices (list string) lbSwarmLabel sampleParseCIDR
         (swarmClient [svcAlpha]) sampleWorld).2.
Proof.
  assert (ServiceList (swarmClient [svcAlpha]) (tick sampleWorld) = Ok [svcAlpha]) as H1
    by reflexivity.
  assert (ServerVersion (swarmClient [svcAlpha]) (S (tick sampleWorld))
          = Ok {| ver_Version := "17.06.0-ce"; ver_APIVersion := "1.30" |}) as H2
    by reflexivity.
  split; [exact H1|split; [exact H2|]].
  exact (proj2 (proj2 (proj2
           (networkListArgs_threshold (list string) lbSwarmLabel sampleParseCIDR)))
           (swarmClient [svcAlpha]) sampleWorld _ _ H1 H2).
Defined.

Example networkListArgs_samples :
  map networkListArgs ["1.24"; "1.28"; "1.29"; "1.30"; "1.100"; "2.0"; "1.29.1"]%string
  = [[("driver", "overlay")]; [("driver", "overlay")]; [("scope", "swarm")];
     [("scope", "swarm")]; [("scope", "swarm")]; [("scope", "swarm")];
     [("scope", "swarm")]]%string.
Proof. reflexivity. Qed.

(** ** The standalone watch loop *)

Lemma watchEvent_triggers_witness :
  isWatchedAction (msg_Action renameEvent) = false
  ∧ isWatchedAction (msg_Action startEvent) = true
  ∧ watchEvent (list string) buildNames standaloneClient renameEvent sampleWorld
    = (tt, sampleWorld)
  ∧ enumerations (list string)
      (watchEvent (list string) buildNames standaloneClient startEvent sampleWorld).2
    = S (enumerations (list string) sampleWorld).
Proof.
  assert (isWatchedAction (msg_Action renameEvent) = false) as H1 by reflexivity.
  assert (isWatchedAction (msg_Action startEvent) = true) as H2 by reflexivity.
  split; [exact H1|split; [exact H2|split]].
  - exact (proj1 (proj2 (proj2
             (watchEvent_triggers (list string) buildNames standaloneClient renameEvent
                sampleWorld))) H1).
  - exact (proj1 (proj2
             (watchEvent_triggers (list string) buildNames standaloneClient startEvent
                sampleWorld)) H2).
Defined.

(** A stream of four events and then the end of the stream: the two watched
    events list the containers and publish, the loop returns the error. *)
Example watchLoop_sample :
  let r := watchLoop (list string) buildNames standaloneClient
             [EventItem renameEvent; EventItem startEvent;
              EventItem {| msg_Action := "health_status: healthy"; msg_Actor_ID := "c1" |};
              EventItem {| msg_Action := "destroy"; msg_Actor_ID := "c2" |};
              ErrorItem "EOF"; EventItem startEvent] sampleWorld in
  (r.1 = Some "EOF"%string
   ∧ enumerations (list string) r.2 = 2%nat
   ∧ chan r.2 = [dockerMessage (list string) ["/web"%string; "/sidecar"%string];
                 dockerMessage (list string) ["/web"%string; "/sidecar"%string]]).
Proof. cbv zeta. repeat split; reflexivity. Qed.

(** The listing succeeds after a "start" event, the builder returns nil, and
    nothing is sent. *)
Lemma startStopHandle_publishes_counterexample :
  let r := watchEvent (list string) buildNothing standaloneClient startEvent sampleWorld in
  (isWatchedAction (msg_Action startEvent) = true
   ∧ (listContainers (list string) standaloneClient sampleWorld).1.2 = None
   ∧ chan r.2 = []).
Proof. cbv zeta. repeat split; reflexivity. Qed.

Lemma startStopHandle_publishes_witness :
  isWatchedAction (msg_Action startEvent) = true
  ∧ (listContainers (list string) standaloneClient sampleWorld).1.2 = None
  ∧ chan (watchEvent (list string) buildNames standaloneClient startEvent sampleWorld).2
    = chan sampleWorld
      ++ match buildNames (listContainers (list string) standaloneClient sampleWorld).1.1 with
         | Some configuration => [dockerMessage (list string) configuration]
         | None => []
         end.
Proof.
  assert (isWatchedAction (msg_Action startEvent) = true) as H1 by reflexivity.
  assert ((listContainers (list string) standaloneClient sampleWorld).1.2 = None) as H2
    by reflexivity.
  split; [exact H1|split; [exact H2|]].
  exact (startStopHandle_publishes (list string) buildNames standaloneClient startEvent
           sampleWorld H1 H2).
Defined.

(** ** Addresses that are not in CIDR form *)

Lemma unparsable_address_yields_nil_endpoint_witness :
  spec_EndpointSpec (svc_Spec svcDelta) = Some {| eps_Mode := "vip" |}
  ∧ sampleNetworks !! "n1"%string = Some ingress
  ∧ sampleParseCIDR "10.0.0.300" = None
  ∧ Networks (NetworkSettings (parseService sampleParseCIDR svcDelta sampleNetworks))
      !! "ingress"%string
    = Some (nilEndpoint ingress "n1")
  ∧ Networks (NetworkSettings
                (parseTasks sampleParseCIDR taskBadAddr dockerData0 sampleNetworks false))
      !! "ingress"%string
    = Some (nilEndpoint ingress "n1").
Proof.
  assert (spec_EndpointSpec (svc_Spec svcDelta) = Some {| eps_Mode := "vip" |}) as H1
    by reflexivity.
  assert (sampleNetworks !! "n1"%string = Some ingress) as H2 by reflexivity.
  assert (sampleParseCIDR "10.0.0.300" = None) as H3 by reflexivity.
  split; [exact H1|split; [exact H2|split; [exact H3|split]]].
  - refine (proj1 (proj2 (proj2 (proj2
             (proj1 (unparsable_address_yields_nil_endpoint (list string) lbSwarmLabel
                       sampleParseCIDR sampleNetworks ingress)
                svcDelta {| eps_Mode := "vip" |} []
                {| vip_NetworkID := "n1"; vip_Addr := "10.0.0.300" |} []
                H1 eq_refl eq_refl H2 _ H3)))) eq_refl).
    discriminate.
  - refine (proj1 (proj2 (proj2 (proj2
             (proj2 (unparsable_address_yields_nil_endpoint (list string) lbSwarmLabel
                       sampleParseCIDR sampleNetworks ingress)
                taskBadAddr dockerData0 false []
                {| na_Network_ID := "n1"; na_Addresses := ["not-an-address"%string] |} []
                [] "not-an-address"%string [] eq_refl H2 eq_refl _ eq_refl)))) eq_refl eq_refl).
    discriminate.
Defined.

(** The pass keeps both records with the address ["<nil>"]. *)
Example listServices_sample_nil_address :
  map (λ d, (Name d, nd_Addr <$> Networks (NetworkSettings d) !! "ingress"%string))
    (listServices (list string) lbSwarmLabel sampleParseCIDR
       (swarmClient [svcDelta; svcEpsilon]) sampleWorld).1.1
  = [("delta", Some "<nil>"); ("epsilon.t1", Some "10.0.0.3");
     ("epsilon.t3", Some "<nil>")]%string.
Proof. reflexivity. Qed.

(** ** The readiness gate of the swarm callback *)

(** The task of the service is preparing twice and then runs: the callback
    sleeps twice, then enumerates the swarm and publishes once. With too
    little fuel the model stops while the callback is still waiting. *)
Example callbackFunc_sample_converges :
  let r := callbackFunc (list string) buildNames lbSwarmLabel sampleParseCIDR 5
             convergingClient (updateEvent "A") sampleWorld in
  let r' := callbackFunc (list string) buildNames lbSwarmLabel sampleParseCIDR 2
              convergingClient (updateEvent "A") sampleWorld in
  (r.1 = Some tt
   ∧ slept r.2 = 2%nat
   ∧ chan r.2 = [dockerMessage (list string) ["alpha.1"%string]]
   ∧ r'.1 = None
   ∧ chan r'.2 = []).
Proof. cbv zeta. repeat split; reflexivity. Qed.

(** An event without actor ID enumerates the swarm at once. *)
Example callbackFunc_sample_no_actor :
  let r := callbackFunc (list string) buildNames lbSwarmLabel sampleParseCIDR 1
             (swarmClient [svcZeta]) {| msg_Action := "update"; msg_Actor_ID := "" |}
             sampleWorld in
  (r.1 = Some tt
   ∧ chan r.2 = [dockerMessage (list string) ["zeta"%string]]).
Proof. cbv zeta. repeat split; reflexivity. Qed.

(** * The further properties on the sample daemons *)

Lemma listContainers_records_witness :
  ContainerList standaloneClient (tick sampleWorld)
  = Ok [ {| container_ID := "c1" |}; {| container_ID := "c2" |};
         {| container_ID := "c3" |}; {| container_ID := "c4" |} ]
  ∧ (listContainers (list string) standaloneClient sampleWorld).1
    = ([parseContainer webJSON; parseContainer sidecarJSON], None).
Proof.
  assert (ContainerList standaloneClient (tick sampleWorld)
          = Ok [ {| container_ID := "c1" |}; {| container_ID := "c2" |};
                 {| container_ID := "c3" |}; {| container_ID := "c4" |} ]) as H
    by reflexivity.
  split; [exact H|].
  exact (proj1 (listContainers_records (list string) standaloneClient sampleWorld _ H)).
Defined.

Lemma listTasks_records_witness :
  TaskList (swarmClient [svcAlpha]) (tick sampleWorld) (serviceIDFilter "A")
  = Ok [taskRunning; taskPreparing]
  ∧ (length (listTasks (list string) sampleParseCIDR (swarmClient [svcAlpha]) "A"
               (parseService sampleParseCIDR svcAlpha sampleNetworks) sampleNetworks false
               sampleWorld).1.1 ≤ 2)%nat.
Proof.
  assert (TaskList (swarmClient [svcAlpha]) (tick sampleWorld) (serviceIDFilter "A")
          = Ok [taskRunning; taskPreparing]) as H by reflexivity.
  split; [exact H|].
  exact (proj2 (proj2 (proj2
           (listTasks_records (list string) sampleParseCIDR (swarmClient [svcAlpha]) "A"
              (parseService sampleParseCIDR svcAlpha sampleNetworks) sampleNetworks false
              sampleWorld _ H)))).
Defined.


Lemma listServices_loop_error_witness :
  byTasks lbSwarmLabel sampleParseCIDR sampleNetworks svcBeta = true
  ∧ Forall (λ service, byTasks lbSwarmLabel sampleParseCIDR sampleNetworks service = false)
      [svcZeta]
  ∧ (listServices_loop (list string) lbSwarmLabel sampleParseCIDR
       (swarmClient [svcAlpha; svcBeta; svcZeta]) ([svcAlpha] ++ svcBeta :: [svcZeta])
       sampleNetworks [] None sampleWorld).1.2
    = Some "tasks unavailable"%string.
Proof.
  assert (byTasks lbSwarmLabel sampleParseCIDR sampleNetworks svcBeta = true) as H1
    by reflexivity.
  assert (Forall (λ service,
                    byTasks lbSwarmLabel sampleParseCIDR sampleNetworks service = false)
            [svcZeta]) as H2 by (repeat constructor).
  split; [exact H1|split; [exact H2|]].
  exact (proj2 (listServices_loop_error (list string) lbSwarmLabel sampleParseCIDR
                  (swarmClient [svcAlpha; svcBeta; svcZeta])
                  ([svcAlpha] ++ svcBeta :: [svcZeta]) sampleNetworks [] None sampleWorld)
           [svcAlpha] svcBeta [svcZeta] eq_refl H1 H2).
Defined.

Lemma callbackFunc_never_ready_witness :
  msg_Actor_ID (updateEvent "A") ≠ EmptyString
  ∧ (∀ t, ∃ taskList,
        TaskList stuckClient t (serviceIDFilter (msg_Actor_ID (updateEvent "A")))
        = Ok taskList
        ∧ waits taskList)
  ∧ (callbackFunc (list string) buildNames lbSwarmLabel sampleParseCIDR 7
       stuckClient (updateEvent "A") sampleWorld).1 = None
  ∧ slept (callbackFunc (list string) buildNames lbSwarmLabel sampleParseCIDR 7
             stuckClient (updateEvent "A") sampleWorld).2 = 7%nat
  ∧ chan (callbackFunc (list string) buildNames lbSwarmLabel sampleParseCIDR 7
            stuckClient (updateEvent "A") sampleWorld).2 = [].
Proof.
  assert (msg_Actor_ID (updateEvent "A") ≠ EmptyString) as H1
    by (vm_compute; discriminate).
  assert (∀ t, ∃ taskList,
            TaskList stuckClient t (serviceIDFilter (msg_Actor_ID (updateEvent "A")))
            = Ok taskList
            ∧ waits taskList) as H2.
  { intros t. exists [taskPreparing]. split; [reflexivity|].
    right. exists taskPreparing. split; [left|].
    apply list_elem_of_In. vm_compute. tauto. }
  split; [exact H1|split; [exact H2|]].
  destruct (callbackFunc_never_ready (list string) buildNames lbSwarmLabel sampleParseCIDR
              7 stuckClient (updateEvent "A") sampleWorld H1 H2) as (R1 & R2 & R3 & _).
  exact (conj R1 (conj R2 R3)).
Defined.

Lemma callbackFunc_converges_witness :
  msg_Actor_ID (updateEvent "A") ≠ EmptyString
  ∧ (∀ i, (i < 2)%nat →
          ∃ taskList,
            TaskList convergingClient (tick sampleWorld + i)%nat
              (serviceIDFilter (msg_Actor_ID (updateEvent "A")))
            = Ok taskList
            ∧ waits taskList)
  ∧ TaskList convergingClient (tick sampleWorld + 2)%nat (serviceIDFilter "A")
    = Ok [taskRunning]
  ∧ ¬ waits [taskRunning]
  ∧ callbackFunc (list string) buildNames lbSwarmLabel sampleParseCIDR (2 + 1)
      convergingClient (updateEvent "A") sampleWorld
    = (Some tt,
       (listAndUpdateServices (list string) buildNames lbSwarmLabel sampleParseCIDR
          convergingClient
          (called (list string) (CallTaskList (serviceIDFilter "A"))
             (waited (list string) (serviceIDFilter "A") 2 sampleWorld))).2).
Proof.
  assert (msg_Actor_ID (updateEvent "A") ≠ EmptyString) as H1
    by (vm_compute; discriminate).
  assert (∀ i, (i < 2)%nat →
               ∃ taskList,
                 TaskList convergingClient (tick sampleWorld + i)%nat
                   (serviceIDFilter (msg_Actor_ID (updateEvent "A")))
                 = Ok taskList
                 ∧ waits taskList) as H2.
  { intros i Hi. exists [mkTask "t1" 1 "preparing" ["10.0.0.3/24"%string]].
    split; [destruct i as [|[|i]]; [reflexivity|reflexivity|lia]|].
    right. eexists. split; [left|].
    apply list_elem_of_In. vm_compute. tauto. }
  assert (TaskList convergingClient (tick sampleWorld + 2)%nat (serviceIDFilter "A")
          = Ok [taskRunning]) as H3 by reflexivity.
  assert (¬ waits [taskRunning]) as H4.
  { intros [H|(task & Hin & Hs)]; [discriminate H|].
    apply list_elem_of_singleton in Hin. subst task.
    apply list_elem_of_In in Hs. vm_compute in Hs.
    repeat (destruct Hs as [Hs|Hs]; [discriminate Hs|]). exact Hs. }
  split; [exact H1|split; [exact H2|split; [exact H3|split; [exact H4|]]]].
  exact (proj1 (proj2 (proj2 (proj2
           (callbackFunc_converges (list string) buildNames lbSwarmLabel sampleParseCIDR
              2 0 convergingClient (updateEvent "A") sampleWorld H1 H2))))
           [taskRunning] H3 H4).
Defined.

(** The networks of the sample swarm, looked up by ID. *)
Example mkNetworkMap_sample :
  mkNetworkMap [ingress; {| net_Name := "backend"; net_ID := "n2" |};
                {| net_Name := "ingress-new"; net_ID := "n1" |}] !! "n1"%string
  = Some {| net_Name := "ingress-new"; net_ID := "n1" |}.
Proof. reflexivity. Qed.

(** Of two addresses of one attachment only the last is kept. *)
Example parseTasks_sample_last_address :
  nd_Addr <$> Networks
                (NetworkSettings
                   (parseTasks sampleParseCIDR
                      (mkTask "t9" 9 "running" ["10.0.0.2/24"; "10.0.0.3/24"]%string)
                      dockerData0 sampleNetworks false)) !! "ingress"%string
  = Some "10.0.0.3"%string.
Proof. reflexivity. Qed.

(** A standalone run with the watch on: the first snapshot, then one message
    for the watched event, then the end of the stream. *)
Example operation_standalone_sample :
  let r := operation_standalone (list string) buildNames lbSwarmLabel sampleParseCIDR true
             standaloneClient
             [EventItem renameEvent; EventItem startEvent; ErrorItem "EOF"] sampleWorld in
  (r.1 = Some "EOF"%string
   ∧ chan r.2 = [dockerMessage (list string) ["/web"%string; "/sidecar"%string];
                 dockerMessage (list string) ["/web"%string; "/sidecar"%string]]).
Proof. cbv zeta. split; reflexivity. Qed.
